(** * data_extraction_tool.js: the upload pipeline

    A shallow embedding of the processing functions of
    [data_extraction_tool.js] (column mapping, field cleaning, the
    [/upload] handler with its de-duplication) and the properties of the
    pipeline proved or refuted on it.

    Conventions.
    - A JavaScript string is a [string]: a sequence of code units below
      256 (Latin-1).  White space, digits and letter case are those of
      ECMAScript on that range.
    - A JavaScript number is an integer [Z] (a safe integer, where the
      double is the integer it denotes and [String] prints it in plain
      decimal).
    - A plain object is an association list in insertion order;
      [Obj.keys] puts array-index keys first, as the language does.
      Properties inherited from [Object.prototype] are not modelled.
    - Library calls whose result the source does not fix ([Date.parse],
      Fuse, XLSX, pdf-parse, JSZip) are Section variables.  Fuse is
      called without [includeScore], so its results carry no score. *)

From Stdlib Require Import List String Ascii ZArith NArith QArith Lia Bool Permutation.
From Stdlib Require Import Numbers.DecimalString.
Import ListNotations.

Close Scope Q_scope.
Close Scope Z_scope.
Local Open Scope string_scope.
Local Open Scope list_scope.

(* ================================================================= *)
(** ** Strings *)

Module JsString.

Definition code (c : ascii) : N := N_of_ascii c.

Definition in_range (lo hi : N) (c : ascii) : bool :=
  (N.leb lo (code c) && N.leb (code c) hi)%bool.

(** [\d] *)
Definition is_digit (c : ascii) : bool := in_range 48 57 c.

(** [a-zA-Z] *)
Definition is_ascii_letter (c : ascii) : bool :=
  (in_range 65 90 c || in_range 97 122 c)%bool.

(** [\s], also what [trim] removes: TAB, LF, VT, FF, CR, SP, NBSP. *)
Definition is_space (c : ascii) : bool :=
  (in_range 9 13 c || N.eqb (code c) 32 || N.eqb (code c) 160)%bool.

(** One character of [toLowerCase]: A-Z and the Latin-1 capitals
    (all of 192..222 but the multiplication sign) move up by 32. *)
Definition lower_char (c : ascii) : ascii :=
  if (in_range 65 90 c
      || (in_range 192 222 c && negb (N.eqb (code c) 215)))%bool
  then ascii_of_N (code c + 32) else c.

(** One character of [toUpperCase]: a-z and the Latin-1 small letters
    (all of 224..254 but the division sign) move down by 32.  The
    micro sign, sharp s and y with diaeresis, whose capitals are not
    one Latin-1 character, are left alone; [cleanName] never passes
    them on. *)
Definition upper_char (c : ascii) : ascii :=
  if (in_range 97 122 c
      || (in_range 224 254 c && negb (N.eqb (code c) 247)))%bool
  then ascii_of_N (code c - 32) else c.

Fixpoint map_chars (f : ascii -> ascii) (s : string) : string :=
  match s with
  | EmptyString => EmptyString
  | String c t => String (f c) (map_chars f t)
  end.

Definition toLowerCase : string -> string := map_chars lower_char.
Definition toUpperCase : string -> string := map_chars upper_char.

(** [s.replace(/[^...]/g, '')]: the characters of [s] that [keep]
    accepts, in order. *)
Fixpoint strip (keep : ascii -> bool) (s : string) : string :=
  match s with
  | EmptyString => EmptyString
  | String c t => if keep c then String c (strip keep t) else strip keep t
  end.

Fixpoint trimStart (s : string) : string :=
  match s with
  | EmptyString => EmptyString
  | String c t => if is_space c then trimStart t else s
  end.

Fixpoint trimEnd (s : string) : string :=
  match s with
  | EmptyString => EmptyString
  | String c t =>
      match trimEnd t with
      | EmptyString => if is_space c then EmptyString else String c EmptyString
      | t' => String c t'
      end
  end.

Definition trim (s : string) : string := trimEnd (trimStart s).

(** [s.split(sep)] for a one-character separator. *)
Fixpoint split (sep : ascii) (s : string) : list string :=
  match s with
  | EmptyString => [EmptyString]
  | String c t =>
      if Ascii.eqb c sep then EmptyString :: split sep t
      else match split sep t with
           | h :: r => String c h :: r
           | [] => [String c EmptyString]
           end
  end.

(** [parts.join(sep)] *)
Fixpoint join (sep : string) (parts : list string) : string :=
  match parts with
  | [] => EmptyString
  | [p] => p
  | p :: rest => p ++ sep ++ join sep rest
  end.

(** [w.charAt(0)] and [w.slice(1)] *)
Definition charAt0 (w : string) : string :=
  match w with
  | EmptyString => EmptyString
  | String c _ => String c EmptyString
  end.

Definition slice1 (w : string) : string :=
  match w with
  | EmptyString => EmptyString
  | String _ t => t
  end.

Fixpoint startsWith (p s : string) : bool :=
  match p, s with
  | EmptyString, _ => true
  | String a p', String b s' => (Ascii.eqb a b && startsWith p' s')%bool
  | String _ _, EmptyString => false
  end.

(** [s.includes(needle)] *)
Fixpoint includes_text (needle s : string) : bool :=
  (startsWith needle s
   || match s with
      | EmptyString => false
      | String _ t => includes_text needle t
      end)%bool.

(** [s.split(sep)] for a separator of one character or more; [skip]
    counts the characters of a matched separator still to pass. *)
Fixpoint split_on (sep : string) (skip : nat) (s : string) : list string :=
  match s with
  | EmptyString => [EmptyString]
  | String c t =>
      match skip with
      | S k => split_on sep k t
      | O =>
          if startsWith sep s
          then EmptyString :: split_on sep (String.length sep - 1) t
          else match split_on sep 0 t with
               | h :: r => String c h :: r
               | [] => [String c EmptyString]
               end
      end
  end.

Definition endsWith (p s : string) : bool :=
  (Nat.leb (String.length p) (String.length s)
   && String.eqb (substring (String.length s - String.length p)
                            (String.length p) s) p)%bool.

(** [String(n)] for an integer: plain decimal, [-] for negatives. *)
Definition of_Z (n : Z) : string := NilZero.string_of_int (Z.to_int n).

(** [String(n).padStart(width, '0')] for [0 <= n]. *)
Fixpoint zeros (k : nat) : string :=
  match k with
  | O => EmptyString
  | S k' => String "0" (zeros k')
  end.

Definition pad0 (width : nat) (n : Z) : string :=
  let d := of_Z n in zeros (width - String.length d) ++ d.

End JsString.
Import JsString.

(* ================================================================= *)
(** ** Values and objects *)

(** The scalars a decoded row holds, with [undefined] for what a
    property read returns when the key is absent. *)
Inductive value : Type :=
| VUndefined
| VNull
| VBool (b : bool)
| VNum (n : Z)
| VStr (s : string).

(** [String(v)], also what a template literal does to [v].  A [VNum n]
    stands for a safe integer ([Z.abs n < 2^53]); for these [String]
    gives the plain decimal numeral printed here.  Larger integers,
    fractions, NaN and the infinities are outside the model. *)
Definition ToString (v : value) : string :=
  match v with
  | VUndefined => "undefined"
  | VNull => "null"
  | VBool true => "true"
  | VBool false => "false"
  | VNum n => of_Z n
  | VStr s => s
  end.

(** ToBoolean: what [v || ...] and [if (v)] test. *)
Definition truthy (v : value) : bool :=
  match v with
  | VUndefined | VNull => false
  | VBool b => b
  | VNum n => negb (Z.eqb n 0)
  | VStr s => negb (String.eqb s "")
  end.

(** [v === null] *)
Definition is_null (v : value) : bool :=
  match v with VNull => true | _ => false end.

(** [a || b] *)
Definition or_else (a b : value) : value := if truthy a then a else b.

Module Obj.
Section WithValues.
Context {V : Type}.

(** Own properties in the order they were created. *)
Definition t : Type := list (string * V).

Fixpoint lookup (o : t) (k : string) : option V :=
  match o with
  | [] => None
  | (k', v) :: rest => if String.eqb k' k then Some v else lookup rest k
  end.

(** Writing a key that exists keeps its place; a new key goes last.
    This is also [Map.prototype.set]. *)
Fixpoint store (o : t) (k : string) (v : V) : t :=
  match o with
  | [] => [(k, v)]
  | (k', v') :: rest =>
      if String.eqb k' k then (k', v) :: rest
      else (k', v') :: store rest k v
  end.

(** [o[k] = v] on an object that has its prototype, for a value that is
    a primitive other than [null] or a key other than ["__proto__"]:
    a write to ["__proto__"] creates no own property.  (Where [null]
    can be written under any key, in [parseCSV], the assignment is
    [assign] below.) *)
Definition set (o : t) (k : string) (v : V) : t :=
  if String.eqb k "__proto__" then o else store o k v.

(** [k in o] *)
Definition has (o : t) (k : string) : bool :=
  match lookup o k with Some _ => true | None => false end.

(** An array index is the canonical decimal numeral of an integer
    below 2^32 - 1. *)
Fixpoint numeral (acc : N) (s : string) : option N :=
  match s with
  | EmptyString => Some acc
  | String c r =>
      if is_digit c then numeral (acc * 10 + (code c - 48)) r else None
  end.

Definition array_index (k : string) : option N :=
  match k, numeral 0 k with
  | String _ _, Some n =>
      if (String.eqb (of_Z (Z.of_N n)) k && N.leb n 4294967294)%bool
      then Some n else None
  | _, _ => None
  end.

Fixpoint insert_by_index (n : N) (e : string * V)
         (l : list (N * (string * V))) : list (N * (string * V)) :=
  match l with
  | [] => [(n, e)]
  | (m, e') :: rest =>
      if N.leb n m then (n, e) :: l
      else (m, e') :: insert_by_index n e rest
  end.

Fixpoint index_entries (o : t) : list (N * (string * V)) :=
  match o with
  | [] => []
  | (k, v) :: rest =>
      match array_index k with
      | Some n => insert_by_index n (k, v) (index_entries rest)
      | None => index_entries rest
      end
  end.

Fixpoint named_entries (o : t) : t :=
  match o with
  | [] => []
  | (k, v) :: rest =>
      match array_index k with
      | Some _ => named_entries rest
      | None => (k, v) :: named_entries rest
      end
  end.

(** [Object.entries(o)]: array-index keys in ascending order, then
    the other keys in creation order. *)
Definition entries (o : t) : t :=
  map snd (index_entries o) ++ named_entries o.

Definition keys (o : t) : list string := map fst (entries o).
Definition values (o : t) : list V := map snd (entries o).
End WithValues.
Arguments t : clear implicits.
End Obj.

Definition object : Type := Obj.t value.

(** [row[k]] / [row.k] *)
Definition get (o : object) (k : string) : value :=
  match Obj.lookup o k with Some v => v | None => VUndefined end.

(** An object literal [{k1: v1, ..., kn: vn}]. *)
Definition literal (props : list (string * value)) : object :=
  fold_left (fun o kv => Obj.store o (fst kv) (snd kv)) props [].

(** [obj[k] = v] on an object made by a literal, for a primitive or
    [null] under any key.  The flag tells that the prototype has been
    set to [null].  While the object has its prototype, writing [null]
    to ["__proto__"] removes the prototype and writing a primitive does
    nothing, and neither creates a property; once the prototype is gone
    ["__proto__"] is a key like any other. *)
Definition assign (st : object * bool) (k : string) (v : value) : object * bool :=
  if String.eqb k "__proto__" then
    if snd st then (Obj.store (fst st) k v, true)
    else (fst st, is_null v)
  else (Obj.store (fst st) k v, snd st).

(** What a call returns, or the exception it throws (a rejected promise
    under [await]). *)
Inductive result (A : Type) : Type :=
| Ok (a : A)
| Throw (message : string).
Arguments Ok {A} a.
Arguments Throw {A} message.

(* ================================================================= *)
(** ** Configuration *)

Inductive target : Type := DATE | FULL_NAME | CONTACT | ADDRESS.

Definition target_name (c : target) : string :=
  match c with
  | DATE => "DATE"
  | FULL_NAME => "FULL NAME"
  | CONTACT => "CONTACT"
  | ADDRESS => "ADDRESS"
  end.

Definition TARGET_COLUMNS : list target := [DATE; FULL_NAME; CONTACT; ADDRESS].

Definition COLUMN_MAPPINGS : list (target * list string) :=
  [ (DATE, ["date"; "dob"; "time"; "created_at"; "joined"; "day"]);
    (FULL_NAME, ["name"; "fullname"; "client"; "customer"; "first name";
                 "last name"; "user"]);
    (CONTACT, ["phone"; "mobile"; "cell"; "tel"; "contact number"; "number"]);
    (ADDRESS, ["address"; "location"; "residence"; "city"; "street"]) ].

(* ================================================================= *)
(** ** Dates *)

Module JsDate.
Local Open Scope Z_scope.

Definition msPerDay : Z := 86400000.

(** Year, month (1..12) and day of month of a day number counted from
    1970-01-01, in the proleptic Gregorian calendar. *)
Definition civil_from_days (day : Z) : Z * Z * Z :=
  let z := day + 719468 in
  let era := z / 146097 in
  let doe := z - era * 146097 in
  let yoe := (doe - doe / 1460 + doe / 36524 - doe / 146096) / 365 in
  let doy := doe - (365 * yoe + yoe / 4 - yoe / 100) in
  let mp := (5 * doy + 2) / 153 in
  let d := doy - (153 * mp + 2) / 5 + 1 in
  let m := if mp <? 10 then mp + 3 else mp - 9 in
  let y := yoe + era * 400 + (if m <=? 2 then 1 else 0) in
  (y, m, d).

Definition days_from_civil (y m d : Z) : Z :=
  let y' := if m <=? 2 then y - 1 else y in
  let era := y' / 400 in
  let yoe := y' - era * 400 in
  let doy := (153 * (if 2 <? m then m - 3 else m + 9) + 2) / 5 + d - 1 in
  let doe := yoe * 365 + yoe / 4 - yoe / 100 + doy in
  era * 146097 + doe - 719468.

(** Years 0..9999 print with four digits, the others with a sign and
    six. *)
Definition year_string (y : Z) : string :=
  let sign : string := if y <? 0 then "-" else "+" in
  if ((0 <=? y) && (y <=? 9999))%bool then pad0 4 y
  else (sign ++ pad0 6 (Z.abs y))%string.

(** [Date.prototype.toISOString] of a valid time value. *)
Definition toISOString (t : Z) : string :=
  let '(y, m, d) := civil_from_days (t / msPerDay) in
  let ms := t mod msPerDay in
  (year_string y ++ "-" ++ pad0 2 m ++ "-" ++ pad0 2 d ++ "T"
   ++ pad0 2 (ms / 3600000) ++ ":" ++ pad0 2 (ms / 60000 mod 60) ++ ":"
   ++ pad0 2 (ms / 1000 mod 60) ++ "." ++ pad0 3 (ms mod 1000) ++ "Z")%string.

(** A time value is valid within 8.64e15 ms of the epoch. *)
Definition TimeClip (t : Z) : option Z :=
  if Z.abs t <=? 8640000000000000 then Some t else None.

Definition days_in_month (y m : Z) : Z :=
  days_from_civil (if m =? 12 then y + 1 else y) (if m =? 12 then 1 else m + 1) 1
  - days_from_civil y m 1.

Definition digit_val (c : ascii) : option Z :=
  if is_digit c then Some (Z.of_N (code c) - 48) else None.

Definition number_of (ds : list ascii) : option Z :=
  fold_left (fun acc c =>
               match acc, digit_val c with
               | Some a, Some d => Some (a * 10 + d)
               | _, _ => None
               end) ds (Some 0).

(** A host whose [Date.parse] reads the date-only form [YYYY-MM-DD]
    that ECMAScript fixes (midnight UTC of that day) and nothing else.
    The examples run on it. *)
Definition parse_iso_date (s : string) : option Z :=
  match list_ascii_of_string s with
  | [y1; y2; y3; y4; "-"%char; m1; m2; "-"%char; d1; d2] =>
      match number_of [y1; y2; y3; y4], number_of [m1; m2], number_of [d1; d2] with
      | Some y, Some m, Some d =>
          if ((1 <=? m) && (m <=? 12) && (1 <=? d) && (d <=? days_in_month y m))%bool
          then Some (days_from_civil y m d * msPerDay) else None
      | _, _, _ => None
      end
  | _ => None
  end.
End JsDate.

(* ================================================================= *)
(** ** Processing functions *)

Definition LF : ascii := ascii_of_nat 10.
Definition TAB : ascii := ascii_of_nat 9.

(** The regular expression classes of the cleaners. *)
Definition name_char (c : ascii) : bool := (is_ascii_letter c || is_space c)%bool.

(** [w.charAt(0).toUpperCase() + w.slice(1).toLowerCase()] *)
Definition capitalize (w : string) : string :=
  toUpperCase (charAt0 w) ++ toLowerCase (slice1 w).

Definition cleanName (val : value) : value :=
  match val with
  | VStr s =>
      let clean := trim (strip name_char s) in
      if truthy (VStr clean)
      then VStr (join " " (map capitalize (split " " clean)))
      else VNull
  | _ => VNull
  end.

Definition cleanPhone (val : value) : value :=
  match val with
  | VNull | VUndefined => VNull
  | _ =>
      let digits := strip is_digit (ToString val) in
      if Nat.ltb 5 (String.length digits) then VStr digits else VNull
  end.

(** [values[i]] *)
Definition at_index (values : list string) (i : nat) : value :=
  match nth_error values i with
  | Some s => VStr s
  | None => VUndefined
  end.

Definition parseCSV (csvString : string) : list object :=
  let lines := split LF (trim csvString) in
  let headers := map trim (split "," (hd "" lines)) in
  map (fun line =>
         let values := map trim (split "," line) in
         fst (fold_left (fun obj ih =>
                           assign obj (snd ih) (or_else (at_index values (fst ih)) VNull))
                        (combine (seq 0 (List.length headers)) headers) ([], false)))
      (tl lines).

(** One member of [zip.files]: its name and what
    [file.async('arraybuffer')] resolves with or rejects with. *)
Record zip_entry : Type := { entry_name : string; entry_async : result string }.

(** [req.file], [undefined] when the request carries no file. *)
Record upload_file : Type := { originalname : string; buffer : string }.

Record payload : Type :=
  { filesProcessed : nat;
    recordCount : nat;
    dedupCount : nat;
    data : list object }.

(** [res.json({success: true, ...})] or
    [res.status(500).json({success: false, error})]. *)
Inductive response : Type :=
| Success (body : payload)
| Failure (error : string).

(** The template literal of the de-duplication key. *)
Definition identity_key (row : object) : string :=
  ToString (get row "FULL NAME") ++ "-" ++ ToString (get row "CONTACT")
  ++ "-" ++ ToString (get row "DATE").

(** [new Map(pairs)] and [map.values()] *)
Definition Map_of (pairs : list (string * object)) : Obj.t object :=
  fold_left (fun m kv => Obj.store m (fst kv) (snd kv)) pairs [].

Definition Map_values (m : Obj.t object) : list object := map snd m.

Definition dedup (cleanedData : list object) : list object :=
  Map_values (Map_of (map (fun row => (identity_key row, row)) cleanedData)).

(** One result of [fuse.search].  Fuse is built with
    [{threshold: 0.2}] only, without [includeScore], so a result holds
    the matched synonym and its index and has no [score] property. *)
Record fuse_result : Type := { item : string; refIndex : nat }.

(** A number in the arithmetic on scores: a rational, or NaN. *)
Inductive number : Type :=
| NaN
| Num (q : Q).

(** [results[0].score] as a number: the property is absent, the read
    gives [undefined], and [undefined] is NaN in arithmetic. *)
Definition score_number (_ : fuse_result) : number := NaN.

(** [a - b], [a * b] and [a > b]: NaN spreads through the arithmetic
    and every comparison with NaN is false. *)
Definition num_sub (a b : number) : number :=
  match a, b with
  | Num x, Num y => Num (x - y)
  | _, _ => NaN
  end.

Definition num_mul (a b : number) : number :=
  match a, b with
  | Num x, Num y => Num (x * y)
  | _, _ => NaN
  end.

Definition num_gt (a b : number) : bool :=
  match a, b with
  | Num x, Num y => negb (Qle_bool x y)
  | _, _ => false
  end.

Section Pipeline.

(** [Date.parse] of the host: the time value, [None] for NaN. *)
Variable Date_parse : string -> option Z.

(** [new Fuse(synonyms, {threshold: 0.2}).search(header)]: the results,
    best first. *)
Variable Fuse_search : list string -> string -> list fuse_result.

(** [XLSX.read] and [sheet_to_json] on the first sheet. *)
Variable XLSX_rows : string -> result (list object).

(** [pdfParse(buffer)]: the text of the document ([data.text]), or the
    rejection. *)
Variable pdfParse : string -> result string.

(** [Object.entries((await JSZip.loadAsync(buffer)).files)] *)
Variable JSZip_loadAsync : string -> result (list zip_entry).

Definition includes (synonyms : list string) (header : string) : bool :=
  existsb (String.eqb header) synonyms.

Fixpoint direct (mappings : list (target * list string)) (header : string)
  : option target :=
  match mappings with
  | [] => None
  | (t, synonyms) :: rest =>
      if includes synonyms header then Some t else direct rest header
  end.

(** One turn of the second loop; the state is
    [(bestMatch, highestScore)]. *)
Definition fuzzy_step (header : string) (st : option target * number)
           (m : target * list string) : option target * number :=
  match Fuse_search (snd m) header with
  | first :: _ =>
      let score := num_mul (num_sub (Num 1) (score_number first)) (Num 100) in
      if (num_gt score (Num 80) && num_gt score (snd st))%bool
      then (Some (fst m), score) else st
  | [] => st
  end.

Definition aiMapColumn (header : string) : option target :=
  let header := trim (toLowerCase header) in
  match direct COLUMN_MAPPINGS header with
  | Some t => Some t
  | None => fst (fold_left (fuzzy_step header) COLUMN_MAPPINGS (None, Num 0))
  end.

(** The time value of [new Date(val)]. *)
Definition new_Date (val : value) : option Z :=
  match val with
  | VUndefined => None
  | VNull => Some 0%Z
  | VBool b => Some (if b then 1%Z else 0%Z)
  | VNum n => JsDate.TimeClip n
  | VStr s => Date_parse s
  end.

Definition cleanDate (val : value) : value :=
  match new_Date val with
  | None => VNull
  | Some t => VStr (hd "" (split "T" (JsDate.toISOString t)))
  end.

Definition parseExcel (buffer : string) : result (list object) :=
  XLSX_rows buffer.

(** [line.split(marker)[1]] *)
Definition after_marker (marker line : string) : string :=
  nth 1 (split_on marker 0 line) "".

(** [line.split(marker)[1].split("|")[0].trim()] *)
Definition labelled (marker line : string) : value :=
  VStr (trim (hd "" (split "|" (after_marker marker line)))).

(** One line of the PDF text on the state [(records, currentRecord)]. *)
Definition scan_line (st : list object * object) (line : string)
  : list object * object :=
  let currentRecord := snd st in
  let currentRecord :=
    if includes_text "Date:" line
    then Obj.set currentRecord "DATE" (labelled "Date:" line) else currentRecord in
  let currentRecord :=
    if includes_text "Name:" line
    then Obj.set currentRecord "FULL NAME" (labelled "Name:" line) else currentRecord in
  let currentRecord :=
    if includes_text "Phone:" line
    then Obj.set currentRecord "CONTACT" (labelled "Phone:" line) else currentRecord in
  let currentRecord :=
    if includes_text "Address:" line
    then Obj.set currentRecord "ADDRESS" (VStr (trim (after_marker "Address:" line)))
    else currentRecord in
  if Nat.leb 3 (List.length (Obj.keys currentRecord))
  then (fst st ++ [currentRecord], [])
  else (fst st, currentRecord).

Definition extractTextFromPdf (buffer : string) : result (list object) :=
  match pdfParse buffer with
  | Throw e => Throw e
  | Ok text => Ok (fst (fold_left scan_line (split LF text) ([], [])))
  end.

(** [renamedCols], from the keys of the first row. *)
Definition rename_columns (df : list object) : Obj.t target :=
  fold_left (fun renamedCols col =>
               match aiMapColumn col with
               | Some mapped => Obj.set renamedCols col mapped
               | None => renamedCols
               end)
            (Obj.keys (hd [] df)) [].

(** [newRow[newCol] = row[oldCol]] *)
Definition copy_column (row newRow : object) (on : string * target) : object :=
  Obj.set newRow (target_name (snd on)) (get row (fst on)).

(** [if (!(col in newRow)) newRow[col] = null] *)
Definition fill_missing (newRow : object) (col : target) : object :=
  if negb (Obj.has newRow (target_name col))
  then Obj.set newRow (target_name col) VNull else newRow.

Definition reshape (renamedCols : Obj.t target) (row : object) : object :=
  let newRow := fold_left (copy_column row) (Obj.entries renamedCols) [] in
  fold_left fill_missing TARGET_COLUMNS newRow.

(** Lines 142-158: the mapping applied to one decoded table. *)
Definition map_table (df : list object) : list object :=
  map (reshape (rename_columns df)) df.

(** The decoder chosen by the extension; [None] is the [continue] of
    the last [else]. *)
Definition decode (fileExt buffer : string) : option (result (list object)) :=
  if String.eqb fileExt "csv" then Some (Ok (parseCSV buffer))
  else if String.eqb fileExt "xlsx" then Some (parseExcel buffer)
  else if String.eqb fileExt "pdf" then Some (extractTextFromPdf buffer)
  else None.

Definition skipped (filename : string) : bool :=
  (startsWith "__MACOSX" filename || endsWith "/" filename)%bool.

Definition extension (filename : string) : string :=
  toLowerCase (last (split "." filename) "").

(** The loop over the members of the archive on the state
    [(allData, filesProcessed)].  A rejection of [file.async] is
    outside the inner [try] and leaves the loop; an exception of the
    decoder is caught and the loop goes on. *)
Fixpoint zip_loop (files : list zip_entry) (st : list object * nat)
  : result (list object * nat) :=
  match files with
  | [] => Ok st
  | f :: rest =>
      if skipped (entry_name f) then zip_loop rest st
      else
        match entry_async f with
        | Throw e => Throw e
        | Ok fileBuffer =>
            match decode (extension (entry_name f)) fileBuffer with
            | None => zip_loop rest st
            | Some (Throw _) => zip_loop rest st
            | Some (Ok df) =>
                zip_loop rest (fst st ++ map_table df, S (snd st))
            end
        end
  end.

(** Lines 117-172: [(allData, filesProcessed)]. *)
Definition collect (file : upload_file) : result (list object * nat) :=
  if endsWith ".zip" (originalname file) then
    match JSZip_loadAsync (buffer file) with
    | Throw e => Throw e
    | Ok files => zip_loop files ([], 0)
    end
  else if endsWith ".csv" (originalname file) then
    Ok (parseCSV (buffer file), 1)
  else if endsWith ".xlsx" (originalname file) then
    match parseExcel (buffer file) with
    | Throw e => Throw e
    | Ok rows => Ok (rows, 1)
    end
  else Ok ([], 0).

Definition status (row : object) : value :=
  VStr (if existsb is_null (Obj.values row) then "Missing Fields" else "Valid").

(** Lines 175-181: the object literal of the cleaning step. *)
Definition clean_row (row : object) : object :=
  literal [ ("DATE", cleanDate (get row "DATE"));
            ("FULL NAME", cleanName (get row "FULL NAME"));
            ("CONTACT", cleanPhone (get row "CONTACT"));
            ("ADDRESS", or_else (get row "ADDRESS") VNull);
            ("DATA_STATUS", status row) ].

(** The [/upload] handler. *)
Definition upload (file : option upload_file) : response :=
  match file with
  | None => Failure "Cannot read properties of undefined (reading 'originalname')"
  | Some f =>
      match collect f with
      | Throw e => Failure e
      | Ok (allData, n) =>
          let cleanedData := map clean_row allData in
          let before := List.length cleanedData in
          let cleanedData := dedup cleanedData in
          Success {| filesProcessed := n;
                     recordCount := List.length cleanedData;
                     dedupCount := before - List.length cleanedData;
                     data := cleanedData |}
      end
  end.

(** Reference definitions for the archive: the table a member
    decodes to, if it is a table and its decoder returns, and the
    members whose bytes [file.async] delivers. *)
Definition decoded_table (f : zip_entry) : option (list object) :=
  if skipped (entry_name f) then None
  else match entry_async f with
       | Ok fileBuffer =>
           match decode (extension (entry_name f)) fileBuffer with
           | Some (Ok df) => Some df
           | _ => None
           end
       | Throw _ => None
       end.

Definition decoded_tables (files : list zip_entry) : list (list object) :=
  flat_map (fun f => match decoded_table f with
                     | Some df => [df]
                     | None => []
                     end) files.

Definition readable (f : zip_entry) : Prop :=
  skipped (entry_name f) = true \/ exists fileBuffer, entry_async f = Ok fileBuffer.

End Pipeline.

(* ================================================================= *)
(** ** Reference definitions

    What the statements below compare the code with. *)

(** Keys in the order of their first occurrence, each once. *)
Fixpoint first_seen (seen keys : list string) : list string :=
  match keys with
  | [] => []
  | k :: rest =>
      if existsb (String.eqb k) seen then first_seen seen rest
      else k :: first_seen (k :: seen) rest
  end.

(** The last record of [l] that has the key [k]. *)
Definition last_with_key (k : string) (l : list object) : option object :=
  find (fun row => String.eqb (identity_key row) k) (rev l).

(** A string with its letters re-cased one by one: upper case at the
    start and right after a space character, lower case elsewhere. *)
Fixpoint recase (start : bool) (s : string) : string :=
  match s with
  | EmptyString => EmptyString
  | String c rest =>
      String (if start then upper_char c else lower_char c)
             (recase (Ascii.eqb c " ") rest)
  end.

(** Two white-space characters in a row. *)
Fixpoint has_space_run (s : string) : bool :=
  match s with
  | String a (String b _ as rest) =>
      ((is_space a && is_space b) || has_space_run rest)%bool
  | _ => false
  end.

(** What [join] puts after the first piece. *)
Definition joined_tail (pieces : list string) : string :=
  match pieces with
  | [] => ""
  | _ => " " ++ join " " pieces
  end.

(** Membership in a list of keys. *)
Definition has_key (k : string) (ks : list string) : bool :=
  existsb (String.eqb k) ks.

(** One step of [new Map(pairs)], and the pair a record enters with. *)
Definition put {V : Type} (m : Obj.t V) (kv : string * V) : Obj.t V :=
  Obj.store m (fst kv) (snd kv).

Definition keyed (row : object) : string * object := (identity_key row, row).

(** An object with distinct keys, all of them names of the targets [cs]. *)
Definition target_keys (cs : list target) (o : object) : Prop :=
  NoDup (map fst o) /\ incl (map fst o) (map target_name cs).

(** The five keys of an output record, in the order of the literal. *)
Definition OUTPUT_KEYS : list string :=
  ["DATE"; "FULL NAME"; "CONTACT"; "ADDRESS"; "DATA_STATUS"].

(** The values [x || null] turns into [null]. *)
Definition FALSY : list value :=
  [VUndefined; VNull; VBool false; VNum 0; VStr ""].

(** The status tag as a function of the cleaned values: the reading
    under which a record is incomplete exactly when one of its four
    output fields is [null]. *)
Definition status_of_cleaned (out : object) : value :=
  VStr (if existsb (fun c => is_null (get out (target_name c))) TARGET_COLUMNS
        then "Missing Fields" else "Valid").

(** A host for the examples: [Date.parse] reads ISO dates only, Fuse
    finds nothing, every spreadsheet and PDF
    is corrupt, and the archive has a corrupt spreadsheet between two
    good CSV members. *)
Module Demo.
Definition Fuse_search (_ : list string) (_ : string) : list fuse_result := [].
Definition XLSX_rows (_ : string) : result (list object) :=
  Throw "File is password-protected".
Definition pdfParse (_ : string) : result string :=
  Throw "Invalid PDF structure".
Definition archive : list zip_entry :=
  [ {| entry_name := "__MACOSX/._people.csv"; entry_async := Ok "" |};
    {| entry_name := "people.csv";
       entry_async := Ok ("Name,Phone" ++ String LF "john smith,555-12-34")%string |};
    {| entry_name := "broken.xlsx"; entry_async := Ok "PK" |};
    {| entry_name := "notes.txt"; entry_async := Ok "hello" |};
    {| entry_name := "more/team.CSV";
       entry_async := Ok ("tel,client,joined"
                          ++ String LF "(020) 7946-0958,ada lovelace,1843-09-01")%string |} ].
Definition JSZip_loadAsync (_ : string) : result (list zip_entry) := Ok archive.

Definition clean_row : object -> object := clean_row JsDate.parse_iso_date.
Definition upload : option upload_file -> response :=
  upload JsDate.parse_iso_date Fuse_search XLSX_rows pdfParse
         JSZip_loadAsync.

Definition bundle : upload_file := {| originalname := "batch.zip"; buffer := "PK" |}.
Definition single_csv : upload_file :=
  {| originalname := "people.csv";
     buffer := ("Name,Phone" ++ String LF "john smith,555-12-34")%string |}.
End Demo.

(* ================================================================= *)
(** ** Further reference definitions *)

(** Every character of [s] passes [p]. *)
Fixpoint all_chars (p : ascii -> bool) (s : string) : bool :=
  match s with
  | EmptyString => true
  | String c rest => (p c && all_chars p rest)%bool
  end.

(** No white space in front. *)
Definition starts_clean (s : string) : bool :=
  match s with
  | EmptyString => true
  | String c _ => negb (is_space c)
  end.

(** A Fuse that finds the synonym "phone" for the pattern "phon" and
    finds nothing else. *)
Definition Fuse_typo (synonyms : list string) (pattern : string) : list fuse_result :=
  if (String.eqb pattern "phon" && existsb (String.eqb "phone") synonyms)%bool
  then [ {| item := "phone"; refIndex := 0 |} ] else [].

(** The characters of the date part of an ISO time stamp: digits, the
    hyphen and the sign of an expanded year. *)
Definition date_char (c : ascii) : bool :=
  (is_digit c || Ascii.eqb c "-" || Ascii.eqb c "+")%bool.

Definition not_hyphen (c : ascii) : bool := negb (Ascii.eqb c "-").
Definition not_T (c : ascii) : bool := negb (Ascii.eqb c "T").

(** The trimmed cells of the first line of a CSV text. *)
Definition csv_headers (csvString : string) : list string :=
  map trim (split "," (hd "" (split LF (trim csvString)))).

Definition not_proto (h : string) : bool := negb (String.eqb h "__proto__").

(** What a cell of a parsed CSV row can be: [null], or a non-empty
    string with no white space at its ends and no comma or line feed
    inside. *)
Definition csv_cell (v : value) : Prop :=
  v = VNull
  \/ exists cell, v = VStr cell
                  /\ cell <> ""
                  /\ trim cell = cell
                  /\ all_chars (fun c => negb (Ascii.eqb c ",")) cell = true
                  /\ all_chars (fun c => negb (Ascii.eqb c LF)) cell = true.

(** A string value with no white space at its ends. *)
Definition trimmed_text (v : value) : Prop := exists s, v = VStr s /\ trim s = s.

(** What a record scanned from PDF text looks like: three or four
    fields, under distinct names of target columns, each a trimmed
    string. *)
Definition pdf_record (r : object) : Prop :=
  3 <= List.length (Obj.keys r) <= 4
  /\ NoDup (Obj.keys r)
  /\ incl (Obj.keys r) (map target_name TARGET_COLUMNS)
  /\ Forall trimmed_text (Obj.values r).

(** A PDF reader that hands over the bytes as the text. *)
Definition pdfParse_plain (buffer : string) : result string := Ok buffer.

(** An archive whose second member cannot be inflated, behind a good
    CSV member and a resource-fork entry that cannot be read either. *)
Module Damaged.
Definition good : zip_entry :=
  {| entry_name := "people.csv";
     entry_async := Ok ("Name,Phone" ++ String LF "john smith,555-12-34")%string |}.
Definition fork : zip_entry :=
  {| entry_name := "__MACOSX/._people.csv";
     entry_async := Throw "Corrupted zip : CRC32 mismatch" |}.
Definition unreadable : zip_entry :=
  {| entry_name := "notes.txt"; entry_async := Throw "invalid stored block lengths" |}.
Definition archive : list zip_entry := [good; fork; unreadable; good].
Definition JSZip_loadAsync (_ : string) : result (list zip_entry) := Ok archive.
Definition upload : option upload_file -> response :=
  upload JsDate.parse_iso_date Demo.Fuse_search Demo.XLSX_rows Demo.pdfParse
         JSZip_loadAsync.
End Damaged.

(* ================================================================= *)
(** ** The download handler *)

Definition QUOTE : ascii := ascii_of_nat 34.

(** A value between double quotes, as the template of a CSV line
    writes it; nothing inside is escaped. *)
Definition quoted (s : string) : string := String QUOTE (s ++ String QUOTE "").

(** The template literal of one line of the CSV export. *)
Definition csv_line (row : object) : string :=
  ToString (get row "DATE") ++ "," ++ quoted (ToString (get row "FULL NAME"))
  ++ "," ++ quoted (ToString (get row "CONTACT"))
  ++ "," ++ quoted (ToString (get row "ADDRESS")).

Definition CSV_HEADER : string := "DATE,FULL NAME,CONTACT,ADDRESS".

(** The body the [csv] branch sends. *)
Definition download_csv (data : list object) : string :=
  CSV_HEADER ++ String LF (join (String LF "") (map csv_line data)).

(** What [/download/:format] sends: content type, disposition and body;
    [NothingSent] for a format that is neither [csv] nor [xlsx].
    [XLSX_write] stands for the workbook the xlsx library builds. *)
Inductive sent : Type :=
| Sent (contentType disposition body : string)
| NothingSent.

Definition download (XLSX_write : list object -> string)
           (format : string) (data : list object) : sent :=
  if String.eqb format "csv" then
    Sent "text/csv" ("attachment; filename=" ++ quoted "cleaned_data.csv")
         (download_csv data)
  else if String.eqb format "xlsx" then
    Sent "application/vnd.openxmlformats-officedocument.spreadsheetml.sheet"
         ("attachment; filename=" ++ quoted "cleaned_data.xlsx")
         (XLSX_write data)
  else NothingSent.

Definition not_LF (c : ascii) : bool := negb (Ascii.eqb c LF).
Definition not_comma (c : ascii) : bool := negb (Ascii.eqb c ",").

(** A record whose four printed fields hold no line feed. *)
Definition one_line (row : object) : Prop :=
  Forall (fun c => all_chars not_LF (ToString (get row (target_name c))) = true)
         TARGET_COLUMNS.

(** A record whose four printed fields hold neither a line feed nor a
    comma. *)
Definition plain_fields (row : object) : Prop :=
  Forall (fun c => all_chars not_LF (ToString (get row (target_name c))) = true
                   /\ all_chars not_comma (ToString (get row (target_name c))) = true)
         TARGET_COLUMNS.

(** What [parseCSV] reads back from the exported line of a record. *)
Definition reimported (row : object) : object :=
  [ ("DATE", or_else (VStr (trim (ToString (get row "DATE")))) VNull);
    ("FULL NAME", VStr (quoted (ToString (get row "FULL NAME"))));
    ("CONTACT", VStr (quoted (ToString (get row "CONTACT"))));
    ("ADDRESS", VStr (quoted (ToString (get row "ADDRESS")))) ].

(** The last character is no white space. *)
Fixpoint ends_clean (s : string) : bool :=
  match s with
  | EmptyString => true
  | String c EmptyString => negb (is_space c)
  | String _ rest => ends_clean rest
  end.

(** For a value that is [null] or a string other than "null", the
    printed form tells which. *)
Definition printable (v : value) : Prop :=
  v = VNull \/ exists s, v = VStr s /\ s <> "null".

(** The column a target takes its value from: the last header, in the
    order of [Object.entries], that was mapped to it. *)
Definition source_of (renamedCols : Obj.t target) (c : target) : option (string * target) :=
  find (fun on => String.eqb (target_name (snd on)) (target_name c))
       (rev (Obj.entries renamedCols)).

(** The fields of a record being scanned from PDF text. *)
Definition scanned (o : object) : Prop :=
  target_keys TARGET_COLUMNS o /\ Forall (fun kv => trimmed_text (snd kv)) o.

(** One turn of the [forEach] of [parseCSV], the cells of the line
    given by index. *)
Definition csv_step (cell_of : nat -> value) (obj : object * bool) (ih : nat * string)
  : object * bool :=
  assign obj (snd ih) (cell_of (fst ih)).

(** An archive with a PDF member between two good CSV members, on the
    host of the examples.  The bytes of [pdf_undecodable] are read and
    the PDF reader rejects them; those of [pdf_unreadable] cannot be
    inflated. *)
Module Bundle.
Definition first : zip_entry :=
  {| entry_name := "people.csv";
     entry_async := Ok ("Name,Phone" ++ String LF "john smith,555-12-34")%string |}.
Definition last : zip_entry :=
  {| entry_name := "team.csv";
     entry_async := Ok ("tel,client,joined"
                        ++ String LF "(020) 7946-0958,ada lovelace,1843-09-01")%string |}.
Definition pdf_undecodable : zip_entry :=
  {| entry_name := "scan.pdf"; entry_async := Ok "not a pdf" |}.
Definition pdf_unreadable : zip_entry :=
  {| entry_name := "scan.pdf"; entry_async := Throw "invalid stored block lengths" |}.
Definition upload (files : list zip_entry) : response :=
  upload JsDate.parse_iso_date Demo.Fuse_search Demo.XLSX_rows Demo.pdfParse
         (fun _ => Ok files) (Some Demo.bundle).
End Bundle.

(* ================================================================= *)
(** * Properties *)

(** ** Sanity checks of the string and date primitives *)

Example trim_both_ends : trim "  a b  " = "a b".
Proof. reflexivity. Qed.

Example split_keeps_empty_pieces : split " " "a  b" = ["a"; ""; "b"].
Proof. reflexivity. Qed.

Example endsWith_suffix : endsWith ".zip" "a.zip" = true /\ endsWith ".zip" "zip" = false.
Proof. split; reflexivity. Qed.

Example epoch_iso : JsDate.toISOString 0 = "1970-01-01T00:00:00.000Z".
Proof. reflexivity. Qed.

Example before_epoch_iso : JsDate.toISOString (-1) = "1969-12-31T23:59:59.999Z".
Proof. reflexivity. Qed.

Example year_2023_iso :
  JsDate.toISOString 1700000000123 = "2023-11-14T22:13:20.123Z".
Proof. reflexivity. Qed.

Example range_ends_iso :
  JsDate.toISOString (-8640000000000000) = "-271821-04-20T00:00:00.000Z"
  /\ JsDate.toISOString 8640000000000000 = "+275760-09-13T00:00:00.000Z".
Proof. split; reflexivity. Qed.

Example keys_put_indices_first :
  @Obj.keys nat [("b", 1); ("10", 2); ("a", 3); ("2", 4); ("01", 5)]
  = ["2"; "10"; "b"; "a"; "01"].
Proof. reflexivity. Qed.

Example parseCSV_rows :
  parseCSV ("Name, Phone,x" ++ String LF "john,,5" ++ String LF "a" ++ String LF "")
  = [ [("Name", VStr "john"); ("Phone", VNull); ("x", VStr "5")];
      [("Name", VStr "a"); ("Phone", VNull); ("x", VNull)] ].
Proof. reflexivity. Qed.

Example split_on_text :
  split_on "ab" 0 "xabyabab" = ["x"; "y"; ""; ""]
  /\ split_on "aa" 0 "aaa" = [""; "a"].
Proof. split; reflexivity. Qed.

Example pdf_records :
  extractTextFromPdf (fun text => Ok text)
    ("Date: 2020-01-05 | Name: John Smith | Phone: 555-1234"
     ++ String LF "Address: 1 Main St"
     ++ String LF "Name: A|Date:1"
     ++ String LF "Phone: 12 Address: x | y")
  = Ok [ [ ("DATE", VStr "2020-01-05"); ("FULL NAME", VStr "John Smith");
           ("CONTACT", VStr "555-1234") ];
         [ ("ADDRESS", VStr "1 Main St"); ("DATE", VStr "1");
           ("FULL NAME", VStr "A") ] ].
Proof. reflexivity. Qed.

(** ** Contact numbers *)

Lemma strip_chars (keep : ascii -> bool) (s : string) :
  list_ascii_of_string (strip keep s) = filter keep (list_ascii_of_string s).
Proof.
  induction s as [|c s IH]; simpl; [reflexivity|].
  destruct (keep c); simpl; now rewrite IH.
Qed.

Lemma digits_of_keyword (v : value) :
  In v [VUndefined; VNull] -> strip is_digit (ToString v) = "".
Proof.
  intros [<-|[<-|[]]]; reflexivity.
Qed.

(** C7.  For every raw value (non-null ones in particular) the contact
    cleaner looks at the digit characters left of [String(val)]: with
    fewer than six of them it returns [null], otherwise it returns
    exactly these digits, in their original order and with nothing
    else. *)
Theorem cleanPhone_digits (val : value) :
  let digits := strip is_digit (ToString val) in
  list_ascii_of_string digits = filter is_digit (list_ascii_of_string (ToString val))
  /\ cleanPhone val = if Nat.ltb (String.length digits) 6 then VNull else VStr digits.
Proof.
  cbv zeta. split; [apply strip_chars|].
  assert (Hflip : forall n, Nat.ltb 5 n = negb (Nat.ltb n 6)).
  { intro n. destruct (Nat.ltb_spec 5 n), (Nat.ltb_spec n 6); simpl; try reflexivity; lia. }
  destruct val as [| |b|n|s]; unfold cleanPhone;
    try (rewrite digits_of_keyword by (simpl; auto); reflexivity);
    rewrite Hflip; now destruct (Nat.ltb _ 6).
Qed.

Example cleanPhone_dashes :
  cleanPhone (VStr "555-12-34") = VStr "5551234"
  /\ cleanPhone (VStr "12-345") = VNull
  /\ cleanPhone (VNum 5551234) = VStr "5551234".
Proof. repeat split; reflexivity. Qed.

(** ** Column mapping *)

Section ColumnMapper.
Variable Fuse_search : list string -> string -> list fuse_result.

Lemma aiMapColumn_direct (header : string) (t : target) :
  direct COLUMN_MAPPINGS (trim (toLowerCase header)) = Some t ->
  aiMapColumn Fuse_search header = Some t.
Proof.
  unfold aiMapColumn. now intros ->.
Qed.

Lemma direct_owner (t : target) (synonyms : list string) (h : string) :
  In (t, synonyms) COLUMN_MAPPINGS -> In h synonyms ->
  direct COLUMN_MAPPINGS h = Some t.
Proof.
  unfold COLUMN_MAPPINGS. intros Hm Hs.
  repeat (destruct Hm as [Hm|Hm];
          [injection Hm as <- <-;
           repeat (destruct Hs as [<-|Hs]; [reflexivity|]); destruct Hs|]).
  destruct Hm.
Qed.

(** C8.  A header that, lower-cased and trimmed, is one of the
    synonyms configured for a target column is mapped to that column,
    whatever the fuzzy search would say. *)
Theorem aiMapColumn_exact (header : string) (t : target) (synonyms : list string) :
  In (t, synonyms) COLUMN_MAPPINGS ->
  In (trim (toLowerCase header)) synonyms ->
  aiMapColumn Fuse_search header = Some t.
Proof.
  intros Hm Hs. apply aiMapColumn_direct. eapply direct_owner; eassumption.
Qed.
End ColumnMapper.

Lemma aiMapColumn_exact_witness :
  let synonyms := ["phone"; "mobile"; "cell"; "tel"; "contact number"; "number"] in
  In (CONTACT, synonyms) COLUMN_MAPPINGS
  /\ In (trim (toLowerCase "  Contact Number ")) synonyms
  /\ aiMapColumn Demo.Fuse_search "  Contact Number " = Some CONTACT.
Proof.
  cbv zeta.
  assert (Hm : In (CONTACT, ["phone"; "mobile"; "cell"; "tel"; "contact number"; "number"])
                  COLUMN_MAPPINGS) by (simpl; auto).
  assert (Hs : In (trim (toLowerCase "  Contact Number "))
                  ["phone"; "mobile"; "cell"; "tel"; "contact number"; "number"])
    by (simpl; auto 10).
  exact (conj Hm (conj Hs (aiMapColumn_exact Demo.Fuse_search _ _ _ Hm Hs))).
Defined.

(** ** The cleaning step *)

Section ObjectEntries.
Context {V : Type}.
Implicit Types (o : Obj.t V) (e : string * V).

Lemma In_insert_by_index n e l (x : N * (string * V)) :
  In x (Obj.insert_by_index n e l) <-> x = (n, e) \/ In x l.
Proof.
  induction l as [|[m e'] l IH]; simpl.
  - intuition.
  - destruct (N.leb n m); simpl; [intuition|].
    rewrite IH. intuition.
Qed.

Lemma In_index_entries o e :
  In e (map snd (Obj.index_entries o)) <-> In e o /\ Obj.array_index (fst e) <> None.
Proof.
  induction o as [|[k v] o IH]; simpl; [intuition|].
  destruct (Obj.array_index k) eqn:Hk.
  - rewrite in_map_iff. split.
    + intros [[n' e'] [<- Hin]]. apply In_insert_by_index in Hin.
      destruct Hin as [Heq|Hin].
      * injection Heq as -> ->. simpl. rewrite Hk. split; [auto|discriminate].
      * assert (H : In e' (map snd (Obj.index_entries o)))
          by (apply in_map_iff; exists (n', e'); auto).
        apply IH in H. simpl. tauto.
    + intros [[<-|Hin] Hidx].
      * exists (n, (k, v)). split; [reflexivity|].
        apply In_insert_by_index. auto.
      * destruct (proj1 (in_map_iff _ _ _) (proj2 IH (conj Hin Hidx))) as [x Hx].
        exists x. split; [tauto|]. apply In_insert_by_index. tauto.
  - rewrite IH. split.
    + tauto.
    + intros [[<-|Hin] Hidx]; [simpl in Hidx; congruence|tauto].
Qed.

Lemma In_named_entries o e :
  In e (Obj.named_entries o) <-> In e o /\ Obj.array_index (fst e) = None.
Proof.
  induction o as [|[k v] o IH]; simpl; [intuition|].
  destruct (Obj.array_index k) eqn:Hk; simpl; rewrite IH.
  - split; [tauto|]. intros [[<-|Hin] Hidx]; [simpl in Hidx; congruence|tauto].
  - split.
    + intros [<-|H]; [simpl; auto|tauto].
    + tauto.
Qed.

(** Enumeration reorders the properties and loses none. *)
Lemma In_entries o e : In e (Obj.entries o) <-> In e o.
Proof.
  unfold Obj.entries. rewrite in_app_iff, In_index_entries, In_named_entries.
  destruct (Obj.array_index (fst e)); intuition congruence.
Qed.

Lemma In_values o (v : V) : In v (Obj.values o) <-> exists k, In (k, v) o.
Proof.
  unfold Obj.values. rewrite in_map_iff. split.
  - intros [[k v'] [<- Hin]]. exists k. now apply In_entries.
  - intros [k Hin]. exists (k, v). split; [reflexivity|now apply In_entries].
Qed.
End ObjectEntries.

Lemma some_null (row : object) :
  existsb is_null (Obj.values row) = true <-> exists k, In (k, VNull) row.
Proof.
  rewrite existsb_exists. split.
  - intros [v [Hin Hv]]. destruct v; try discriminate. now apply In_values.
  - intros H. exists VNull. split; [now apply In_values|reflexivity].
Qed.

Section Cleaning.
Variable Date_parse : string -> option Z.

Lemma clean_row_fields (row : object) :
  clean_row Date_parse row
  = [ ("DATE", cleanDate Date_parse (get row "DATE"));
      ("FULL NAME", cleanName (get row "FULL NAME"));
      ("CONTACT", cleanPhone (get row "CONTACT"));
      ("ADDRESS", or_else (get row "ADDRESS") VNull);
      ("DATA_STATUS", status row) ].
Proof. reflexivity. Qed.

(** C1, amended.  The status tag of a cleaned record is
    "Missing Fields" exactly when some own value of the row it was
    cleaned from, before normalization, is [null]; otherwise it is
    "Valid".  The cleaned values play no part. *)
Theorem status_from_raw_row (row : object) :
  let tag := get (clean_row Date_parse row) "DATA_STATUS" in
  (tag = VStr "Missing Fields" <-> exists k, In (k, VNull) row)
  /\ (tag = VStr "Valid" <-> ~ exists k, In (k, VNull) row).
Proof.
  cbv zeta.
  assert (Htag : get (clean_row Date_parse row) "DATA_STATUS" = status row)
    by reflexivity.
  rewrite Htag. unfold status. rewrite <- some_null.
  destruct (existsb is_null (Obj.values row)); split; split;
    intros H; try reflexivity; try discriminate; congruence.
Qed.

(** C4.  A [null] date is not cleaned like an absent one: [new
    Date(null)] is the epoch, [new Date(undefined)] is invalid.  The
    name, the contact and the address do not tell the two apart. *)
Theorem null_versus_absent :
  cleanDate Date_parse VNull = VStr "1970-01-01"
  /\ cleanDate Date_parse VUndefined = VNull
  /\ cleanName VNull = cleanName VUndefined
  /\ cleanPhone VNull = cleanPhone VUndefined
  /\ or_else VNull VNull = or_else VUndefined VNull.
Proof. repeat split. Qed.

(** C5, amended.  The address of a cleaned record is the raw value
    when that value is truthy; it is [null] for every falsy raw value:
    absent, [null], [false], the number 0 and the empty string. *)
Theorem address_passthrough (row : object) :
  let raw := get row "ADDRESS" in
  let out := get (clean_row Date_parse row) "ADDRESS" in
  (In raw FALSY /\ out = VNull) \/ (~ In raw FALSY /\ out = raw).
Proof.
  cbv zeta.
  assert (Hout : get (clean_row Date_parse row) "ADDRESS"
                 = or_else (get row "ADDRESS") VNull) by reflexivity.
  rewrite Hout. clear Hout. unfold or_else, FALSY.
  destruct (get row "ADDRESS") as [| |[]|n|s]; simpl.
  - left. tauto.
  - left. tauto.
  - right. split; [|reflexivity]. intuition discriminate.
  - left. tauto.
  - destruct (Z.eqb_spec n 0) as [->|Hn]; simpl.
    + left. tauto.
    + right. split; [|reflexivity]. intuition congruence.
  - destruct (String.eqb_spec s "") as [->|Hs]; simpl.
    + left. tauto.
    + right. split; [|reflexivity]. intuition congruence.
Qed.
End Cleaning.

(** A cleaned record whose contact is [null] and whose tag is "Valid":
    the tag was computed from the raw row, where "123" is not [null]. *)
Lemma status_ignores_cleaned_values :
  let file := {| originalname := "people.csv";
                 buffer := "DATE,FULL NAME,CONTACT,ADDRESS"
                           ++ String LF "2020-01-05,John Smith,123,1 Main St" |} in
  let out := [ ("DATE", VStr "2020-01-05"); ("FULL NAME", VStr "John Smith");
               ("CONTACT", VNull); ("ADDRESS", VStr "1 Main St");
               ("DATA_STATUS", VStr "Valid") ] in
  Demo.upload (Some file)
  = Success {| filesProcessed := 1; recordCount := 1; dedupCount := 0; data := [out] |}
  /\ get out "CONTACT" = VNull
  /\ status_of_cleaned out = VStr "Missing Fields"
  /\ get out "DATA_STATUS" <> status_of_cleaned out.
Proof.
  cbv zeta. repeat split. vm_compute. discriminate.
Qed.

(** An address that is present and falsy (the number 0, the empty
    string) is replaced by [null]. *)
Lemma falsy_address_is_dropped :
  let row a := [ ("DATE", VStr "2020-01-05"); ("FULL NAME", VStr "John Smith");
                 ("CONTACT", VStr "5551234"); ("ADDRESS", a) ] in
  get (row (VNum 0)) "ADDRESS" = VNum 0
  /\ get (Demo.clean_row (row (VNum 0))) "ADDRESS" = VNull
  /\ get (row (VStr "")) "ADDRESS" = VStr ""
  /\ get (Demo.clean_row (row (VStr ""))) "ADDRESS" = VNull.
Proof. repeat split. Qed.

(** A table inside an archive with no date column: the reshaped rows
    carry [DATE: null], which the date cleaner turns into the epoch. *)
Example absent_date_column_becomes_epoch :
  Demo.upload (Some Demo.bundle)
  = Success {| filesProcessed := 2; recordCount := 2; dedupCount := 0;
               data := [ [ ("DATE", VStr "1970-01-01");
                           ("FULL NAME", VStr "John Smith");
                           ("CONTACT", VStr "5551234");
                           ("ADDRESS", VNull);
                           ("DATA_STATUS", VStr "Missing Fields") ];
                         [ ("DATE", VStr "1843-09-01");
                           ("FULL NAME", VStr "Ada Lovelace");
                           ("CONTACT", VStr "02079460958");
                           ("ADDRESS", VNull);
                           ("DATA_STATUS", VStr "Missing Fields") ] ] |}.
Proof. reflexivity. Qed.

(** ** Names *)

(** Two spaces stay two spaces, and a tab separates no tokens. *)
Lemma cleanName_keeps_space_runs :
  cleanName (VStr "john  smith") = VStr "John  Smith"
  /\ has_space_run "John  Smith" = true
  /\ cleanName (VStr ("mary" ++ String TAB "ann")) = VStr ("Mary" ++ String TAB "ann").
Proof. repeat split. Qed.

Lemma split_cons (sep : ascii) (s : string) :
  exists h r, split sep s = h :: r.
Proof.
  induction s as [|c s [h [r IH]]]; simpl; [now eauto|].
  destruct (Ascii.eqb c sep); [now eauto|]. rewrite IH. eauto.
Qed.

Lemma append_empty (s : string) : (s ++ "")%string = s.
Proof. induction s; simpl; congruence. Qed.

Lemma join_cons (p : string) (pieces : list string) :
  join " " (p :: pieces) = (p ++ joined_tail pieces)%string.
Proof.
  destruct pieces; simpl; [now rewrite append_empty|reflexivity].
Qed.

Lemma recase_split (s : string) :
  forall h r, split " " s = h :: r ->
  forall start : bool,
    recase start s
    = ((if start then capitalize h else toLowerCase h)
       ++ joined_tail (map capitalize r))%string.
Proof.
  induction s as [|c s IH]; simpl; intros h r Hs start.
  - injection Hs as <- <-. now destruct start.
  - destruct (split_cons " " s) as [h' [r' Hs']].
    rewrite Hs' in Hs. specialize (IH h' r' Hs').
    destruct (Ascii.eqb_spec c " ") as [->|Hc].
    + injection Hs as <- <-. rewrite (IH true).
      change (map capitalize (h' :: r')) with (capitalize h' :: map capitalize r').
      unfold joined_tail at 2. rewrite join_cons. now destruct start.
    + injection Hs as <- <-. rewrite (IH false). now destruct start.
Qed.

Lemma recase_join (s : string) :
  join " " (map capitalize (split " " s)) = recase true s.
Proof.
  destruct (split_cons " " s) as [h [r Hs]].
  rewrite (recase_split s h r Hs true), Hs. apply join_cons.
Qed.

Lemma recase_length (s : string) :
  forall start, String.length (recase start s) = String.length s.
Proof.
  induction s as [|c s IH]; simpl; intros start; [reflexivity|].
  now rewrite IH.
Qed.

Lemma is_space_case (c : ascii) (start : bool) :
  is_space (if start then upper_char c else lower_char c) = is_space c.
Proof.
  destruct start; destruct c as [[] [] [] [] [] [] [] []]; reflexivity.
Qed.

Lemma recase_space_run (s : string) :
  forall start, has_space_run (recase start s) = has_space_run s.
Proof.
  induction s as [|a s IH]; intros start; [reflexivity|].
  destruct s as [|b s]; [reflexivity|].
  specialize (IH (Ascii.eqb a " ")).
  change (recase start (String a (String b s)))
    with (String (if start then upper_char a else lower_char a)
                 (recase (Ascii.eqb a " ") (String b s))).
  change (recase (Ascii.eqb a " ") (String b s))
    with (String (if Ascii.eqb a " " then upper_char b else lower_char b)
                 (recase (Ascii.eqb b " ") s)) in *.
  change (has_space_run (String ?x (String ?y ?t)))
    with ((is_space x && is_space y) || has_space_run (String y t))%bool.
  now rewrite IH, !is_space_case.
Qed.

(** C6, amended.  When something is left of a string after the
    characters other than ASCII letters and white space are removed and
    the ends trimmed, the name cleaner returns that text re-cased:
    upper case at the start and right after each space character, lower
    case elsewhere.  It splits at single spaces only, so the result has
    the length of that text and a run of white space in it exactly when
    that text has one. *)
Theorem cleanName_recase (s : string) :
  let clean := trim (strip name_char s) in
  clean <> "" ->
  cleanName (VStr s) = VStr (recase true clean)
  /\ String.length (recase true clean) = String.length clean
  /\ has_space_run (recase true clean) = has_space_run clean.
Proof.
  cbv zeta. intros Hclean. split; [|split].
  - unfold cleanName. simpl truthy.
    destruct (String.eqb_spec (trim (strip name_char s)) "") as [E|_];
      [contradiction|].
    simpl. now rewrite recase_join.
  - apply recase_length.
  - apply recase_space_run.
Qed.

Lemma cleanName_recase_witness :
  trim (strip name_char " john  o'BRIEN 3rd ") <> ""
  /\ cleanName (VStr " john  o'BRIEN 3rd ") = VStr "John  Obrien Rd".
Proof.
  assert (H : trim (strip name_char " john  o'BRIEN 3rd ") <> "") by discriminate.
  split; [exact H|].
  exact (proj1 (cleanName_recase " john  o'BRIEN 3rd " H)).
Defined.

(** ** De-duplication *)

Section MapStore.
Context {V : Type}.
Implicit Types (m : Obj.t V) (k : string) (v : V).

Lemma has_key_In k ks : has_key k ks = true <-> In k ks.
Proof.
  unfold has_key. rewrite existsb_exists. split.
  - intros [x [Hin Heq]]. apply String.eqb_eq in Heq. now subst.
  - intros Hin. exists k. split; [assumption|apply String.eqb_refl].
Qed.

Lemma store_keys m k v :
  map fst (Obj.store m k v)
  = if has_key k (map fst m) then map fst m else map fst m ++ [k].
Proof.
  induction m as [|[k' v'] m IH]; simpl; [reflexivity|].
  rewrite (String.eqb_sym k k').
  destruct (String.eqb k' k); simpl; [reflexivity|].
  rewrite IH. now destruct (has_key k (map fst m)).
Qed.

Lemma store_lookup m k v k0 :
  Obj.lookup (Obj.store m k v) k0
  = if String.eqb k k0 then Some v else Obj.lookup m k0.
Proof.
  induction m as [|[k' v'] m IH]; simpl.
  - reflexivity.
  - destruct (String.eqb_spec k' k) as [->|Hk]; simpl.
    + now destruct (String.eqb k k0).
    + rewrite IH. destruct (String.eqb_spec k' k0) as [->|Hk0]; [|reflexivity].
      destruct (String.eqb_spec k k0); congruence.
Qed.

Lemma store_In m k v (x : string * V) :
  In x (Obj.store m k v) -> x = (k, v) \/ In x m.
Proof.
  induction m as [|[k' v'] m IH]; simpl.
  - intros [<-|[]]. now left.
  - destruct (String.eqb_spec k' k) as [->|Hk]; simpl.
    + intros [<-|H]; auto.
    + intros [<-|H]; [auto|]. apply IH in H. tauto.
Qed.

Lemma store_NoDup m k v :
  NoDup (map fst m) -> NoDup (map fst (Obj.store m k v)).
Proof.
  intros Hm. rewrite store_keys.
  destruct (has_key k (map fst m)) eqn:Hk; [assumption|].
  apply NoDup_app; [assumption|repeat constructor; intros []|].
  intros a Ha [<-|[]].
  apply has_key_In in Ha. congruence.
Qed.

Lemma lookup_In m k v :
  NoDup (map fst m) -> In (k, v) m -> Obj.lookup m k = Some v.
Proof.
  induction m as [|[k' v'] m IH]; simpl; [tauto|].
  intros Hnd [Heq|Hin].
  - injection Heq as -> ->. now rewrite String.eqb_refl.
  - inversion Hnd as [|? ? Hk' Hm]; subst.
    destruct (String.eqb_spec k' k) as [->|_]; [|now apply IH].
    exfalso. apply Hk'. apply in_map_iff. now exists (k, v).
Qed.
End MapStore.

Lemma first_seen_ext (keys seen seen' : list string) :
  (forall k, has_key k seen = has_key k seen') ->
  first_seen seen keys = first_seen seen' keys.
Proof.
  revert seen seen'. induction keys as [|k keys IH]; intros seen seen' H; simpl.
  - reflexivity.
  - fold (has_key k seen). fold (has_key k seen'). rewrite <- H.
    destruct (has_key k seen); [now apply IH|].
    f_equal. apply IH. intros k0. unfold has_key in *. simpl. now rewrite H.
Qed.

Section MapOf.
Context {V : Type}.

(** The keys of the built map: those it had, then the new ones in the
    order they were first seen. *)
Lemma fold_put_keys (pairs : list (string * V)) :
  forall m,
    map fst (fold_left put pairs m)
    = map fst m ++ first_seen (map fst m) (map fst pairs).
Proof.
  induction pairs as [|[k v] pairs IH]; intros m; simpl.
  - now rewrite app_nil_r.
  - rewrite IH. change (put m (k, v)) with (Obj.store m k v). rewrite store_keys.
    fold (has_key k (map fst m)).
    destruct (has_key k (map fst m)) eqn:Hk; [reflexivity|].
    rewrite <- app_assoc. simpl. do 2 f_equal.
    apply first_seen_ext. intros k0. unfold has_key.
    rewrite existsb_app. simpl. now rewrite orb_false_r, orb_comm.
Qed.

Lemma fold_put_NoDup (pairs : list (string * V)) :
  forall m, NoDup (map fst m) -> NoDup (map fst (fold_left put pairs m)).
Proof.
  induction pairs as [|kv pairs IH]; intros m Hm; simpl; [assumption|].
  apply IH. now apply store_NoDup.
Qed.

Lemma find_app {A : Type} (f : A -> bool) (l1 l2 : list A) :
  find f (l1 ++ l2)
  = match find f l1 with Some x => Some x | None => find f l2 end.
Proof.
  induction l1 as [|a l1 IH]; simpl; [reflexivity|].
  now destruct (f a).
Qed.

(** The value under a key is that of the last pair with this key. *)
Lemma fold_put_lookup (pairs : list (string * V)) :
  forall m k,
    Obj.lookup (fold_left put pairs m) k
    = match find (fun kv => String.eqb (fst kv) k) (rev pairs) with
      | Some kv => Some (snd kv)
      | None => Obj.lookup m k
      end.
Proof.
  induction pairs as [|[k' v'] pairs IH]; intros m k; simpl; [reflexivity|].
  rewrite IH, find_app. 
  destruct (find _ (rev pairs)); [reflexivity|].
  unfold put. simpl. rewrite store_lookup.
  now destruct (String.eqb k' k).
Qed.
End MapOf.

Lemma find_map {A B : Type} (f : A -> B) (p : B -> bool) (l : list A) :
  find p (map f l) = option_map f (find (fun a => p (f a)) l).
Proof.
  induction l as [|a l IH]; simpl; [reflexivity|].
  now destruct (p (f a)).
Qed.

Lemma dedup_unfold (l : list object) :
  dedup l = map snd (fold_left put (map keyed l) []).
Proof. reflexivity. Qed.

Lemma keyed_entries (l : list object) :
  forall m,
    Forall (fun kv => fst kv = identity_key (snd kv)) m ->
    Forall (fun kv => fst kv = identity_key (snd kv)) (fold_left put (map keyed l) m).
Proof.
  induction l as [|r l IH]; intros m Hm; simpl; [assumption|].
  apply IH. apply Forall_forall. intros x Hx.
  apply store_In in Hx. destruct Hx as [->|Hx]; [reflexivity|].
  revert x Hx. now apply Forall_forall.
Qed.

Lemma dedup_last (l : list object) (r : object) :
  In r (dedup l) -> last_with_key (identity_key r) l = Some r.
Proof.
  rewrite dedup_unfold. intros Hin.
  apply in_map_iff in Hin. destruct Hin as [[k r'] [Heq Hin]].
  simpl in Heq. subst r'.
  assert (Hk : k = identity_key r).
  { pose proof (keyed_entries l [] (Forall_nil _)) as H.
    rewrite Forall_forall in H. exact (H _ Hin). }
  subst k.
  apply lookup_In in Hin; [|apply fold_put_NoDup; constructor].
  rewrite fold_put_lookup, <- map_rev, find_map in Hin.
  unfold last_with_key. simpl in Hin.
  destruct (find _ (rev l)) as [r0|]; simpl in Hin; [|discriminate].
  now injection Hin as ->.
Qed.

Lemma dedup_In (l : list object) (r : object) : In r (dedup l) -> In r l.
Proof.
  intros H. apply dedup_last in H. unfold last_with_key in H.
  apply find_some in H. apply in_rev. tauto.
Qed.

(** C2, amended.  De-duplication leaves one record per identity key,
    the keys in the order of their first occurrence; the record standing
    for a key is the last one of the input with that key, and the other
    records with the key are dropped. *)
Theorem dedup_first_position_last_record (l : list object) :
  map identity_key (dedup l) = first_seen [] (map identity_key l)
  /\ Forall (fun r => last_with_key (identity_key r) l = Some r) (dedup l).
Proof.
  split.
  - rewrite dedup_unfold.
    pose proof (keyed_entries l [] (Forall_nil _)) as Hk.
    pose proof (fold_put_keys (map keyed l) []) as Hkeys.
    assert (Hmap : map fst (map keyed l) = map identity_key l)
      by (rewrite map_map; reflexivity).
    rewrite Hmap in Hkeys. simpl in Hkeys.
    rewrite <- Hkeys, map_map.
    apply map_ext_in. intros kv Hin. rewrite Forall_forall in Hk.
    symmetry. now apply Hk.
  - apply Forall_forall. intros r. apply dedup_last.
Qed.

(** Of two records with one key the second survives, in the place of
    the first. *)
Lemma dedup_drops_first_seen :
  let record name address :=
    [ ("DATE", VStr "2020-01-05"); ("FULL NAME", VStr name);
      ("CONTACT", VStr "5551234"); ("ADDRESS", VStr address);
      ("DATA_STATUS", VStr "Valid") ] in
  let r1 := record "John Smith" "1 Main St" in
  let q := record "Mary Ann" "5 Oak Ave" in
  let r2 := record "John Smith" "9 Elm Rd" in
  identity_key r1 = identity_key r2
  /\ dedup [r1; q; r2] = [r2; q]
  /\ ~ In r1 (dedup [r1; q; r2]).
Proof.
  cbv zeta. repeat split.
  vm_compute. intros [H|[H|[]]]; discriminate.
Qed.

(** ** The upload handler *)

Section Upload.
Variable Date_parse : string -> option Z.
Variable Fuse_search : list string -> string -> list fuse_result.
Variable XLSX_rows : string -> result (list object).
Variable pdfParse : string -> result string.
Variable JSZip_loadAsync : string -> result (list zip_entry).

Local Notation "'the_tables' files" :=
  (decoded_tables XLSX_rows pdfParse files) (at level 10, files at level 9).
Local Notation "'the_upload' file" :=
  (upload Date_parse Fuse_search XLSX_rows pdfParse JSZip_loadAsync file)
    (at level 10, file at level 9).

(** The loop adds the rows of the tables that decode, in order, and
    counts them; nothing else changes its state. *)
Lemma zip_loop_tables (files : list zip_entry) :
  Forall readable files ->
  forall st,
    zip_loop Fuse_search XLSX_rows pdfParse files st
    = Ok (fst st ++ flat_map (map_table Fuse_search) (the_tables files),
          snd st + List.length (the_tables files)).
Proof.
  induction 1 as [|f files Hf _ IH]; intros [allData n]; simpl.
  - now rewrite app_nil_r, Nat.add_0_r.
  - unfold decoded_table.
    destruct (skipped (entry_name f)) eqn:Hskip; [now rewrite IH|].
    destruct Hf as [Hf|[fileBuffer Hf]]; [congruence|]. rewrite Hf.
    destruct (decode _ _ (extension (entry_name f)) fileBuffer) as [[df|e]|];
      rewrite IH; simpl; try reflexivity.
    rewrite <- app_assoc, Nat.add_succ_r. reflexivity.
Qed.

(** A member whose decoder throws leaves no trace: the loop ends in
    the state it reaches without that member. *)
Lemma failed_member_leaves_no_trace (before after : list zip_entry) (f : zip_entry)
      (fileBuffer e : string) :
  Forall readable (before ++ f :: after) ->
  skipped (entry_name f) = false ->
  entry_async f = Ok fileBuffer ->
  decode XLSX_rows pdfParse (extension (entry_name f)) fileBuffer
  = Some (Throw e) ->
  forall st,
    zip_loop Fuse_search XLSX_rows pdfParse (before ++ f :: after) st
    = zip_loop Fuse_search XLSX_rows pdfParse (before ++ after) st.
Proof.
  intros Hall Hskip Hread Hdec st.
  assert (Hrest : Forall readable (before ++ after)).
  { apply Forall_app in Hall. destruct Hall as [Hb Ha].
    apply Forall_app. split; [assumption|now inversion Ha]. }
  assert (Hnone : decoded_table XLSX_rows pdfParse f = None)
    by (unfold decoded_table; now rewrite Hskip, Hread, Hdec).
  rewrite (zip_loop_tables _ Hall), (zip_loop_tables _ Hrest).
  unfold decoded_tables. rewrite !flat_map_app. simpl.
  now rewrite Hnone.
Qed.

(** X6.  For an archive whose members can all be read, the handler
    answers with success whatever the decoders do: a table whose
    decoder throws adds no record and is not counted, the tables after
    it are processed, and [filesProcessed] is the number of tables
    that decoded. *)
Theorem zip_isolates_decode_failures (file : upload_file) (files : list zip_entry) :
  endsWith ".zip" (originalname file) = true ->
  JSZip_loadAsync (buffer file) = Ok files ->
  Forall readable files ->
  let tables := the_tables files in
  let cleaned := map (clean_row Date_parse) (flat_map (map_table Fuse_search) tables) in
  the_upload (Some file)
  = Success {| filesProcessed := List.length tables;
               recordCount := List.length (dedup cleaned);
               dedupCount := List.length cleaned - List.length (dedup cleaned);
               data := dedup cleaned |}.
Proof.
  intros Hzip Hload Hread. cbv zeta.
  unfold upload, collect. rewrite Hzip, Hload.
  now rewrite (zip_loop_tables files Hread).
Qed.

Lemma cleaned_values_defined (row : object) :
  Forall (fun v => v <> VUndefined) (Obj.values (clean_row Date_parse row)).
Proof.
  change (Obj.values (clean_row Date_parse row))
    with [ cleanDate Date_parse (get row "DATE");
           cleanName (get row "FULL NAME");
           cleanPhone (get row "CONTACT");
           or_else (get row "ADDRESS") VNull;
           status row ].
  repeat constructor.
  - unfold cleanDate. destruct (new_Date _ _); discriminate.
  - unfold cleanName. destruct (get row "FULL NAME"); try discriminate.
    destruct (truthy _); discriminate.
  - unfold cleanPhone. destruct (get row "CONTACT"); try discriminate;
      destruct (Nat.ltb _ _); discriminate.
  - unfold or_else. destruct (get row "ADDRESS") as [| |[]|n|s]; simpl;
      try discriminate.
    + destruct (negb _); discriminate.
    + destruct (negb _); discriminate.
  - discriminate.
Qed.

(** C10.  Every record the handler sends back has the five keys DATE,
    FULL NAME, CONTACT, ADDRESS and DATA_STATUS and no other, whatever
    keys the input rows had; its DATA_STATUS is one of the two tags,
    and none of its values is [undefined]. *)
Theorem output_record_shape (file : option upload_file) (body : payload) (r : object) :
  the_upload file = Success body ->
  In r (data body) ->
  Obj.keys r = OUTPUT_KEYS
  /\ (get r "DATA_STATUS" = VStr "Missing Fields"
      \/ get r "DATA_STATUS" = VStr "Valid")
  /\ Forall (fun v => v <> VUndefined) (Obj.values r).
Proof.
  unfold upload. intros Hup Hin.
  destruct file as [f|]; [|discriminate].
  destruct (collect _ _ _ _ f) as [[allData n]|e]; [|discriminate].
  injection Hup as <-. simpl in Hin.
  apply dedup_In, in_map_iff in Hin. destruct Hin as [row [<- _]].
  split; [reflexivity|]. split; [|apply cleaned_values_defined].
  change (get (clean_row Date_parse row) "DATA_STATUS") with (status row).
  unfold status. destruct (existsb is_null (Obj.values row)); auto.
Qed.

(** C3.  A CSV file uploaded on its own goes to the cleaning step as
    [parseCSV] returned it, under its raw headers; the same table
    inside an archive is reshaped to the four target keys.  Cleaned
    under the raw headers, every field of the record is [null] and
    the tag is "Valid". *)
Theorem single_file_skips_column_mapping :
  let table := parseCSV (buffer Demo.single_csv) in
  collect Fuse_search XLSX_rows pdfParse JSZip_loadAsync Demo.single_csv
  = Ok (table, 1)
  /\ table = [ [("Name", VStr "john smith"); ("Phone", VStr "555-12-34")] ]
  /\ map_table Fuse_search table
     = [ [ ("FULL NAME", VStr "john smith"); ("CONTACT", VStr "555-12-34");
           ("DATE", VNull); ("ADDRESS", VNull) ] ]
  /\ the_upload (Some Demo.single_csv)
     = Success {| filesProcessed := 1; recordCount := 1; dedupCount := 0;
                  data := [ [ ("DATE", VNull); ("FULL NAME", VNull);
                              ("CONTACT", VNull); ("ADDRESS", VNull);
                              ("DATA_STATUS", VStr "Valid") ] ] |}.
Proof. repeat split. Qed.

End Upload.

(** C9.  A table whose bytes cannot be read from the archive is not
    skipped.  When the PDF reader rejects the bytes of the member, the
    member adds nothing, the two tables around it are processed and
    [filesProcessed] is 2; when [file.async] rejects for the same
    member, which happens before the per-file [try] is entered, the
    request fails with that error and the two good tables are lost. *)
Theorem unreadable_table_aborts_bundle :
  Bundle.upload [Bundle.first; Bundle.pdf_undecodable; Bundle.last]
  = Success {| filesProcessed := 2; recordCount := 2; dedupCount := 0;
               data := [ [ ("DATE", VStr "1970-01-01");
                           ("FULL NAME", VStr "John Smith");
                           ("CONTACT", VStr "5551234");
                           ("ADDRESS", VNull);
                           ("DATA_STATUS", VStr "Missing Fields") ];
                         [ ("DATE", VStr "1843-09-01");
                           ("FULL NAME", VStr "Ada Lovelace");
                           ("CONTACT", VStr "02079460958");
                           ("ADDRESS", VNull);
                           ("DATA_STATUS", VStr "Missing Fields") ] ] |}
  /\ Bundle.upload [Bundle.first; Bundle.pdf_unreadable; Bundle.last]
     = Failure "invalid stored block lengths".
Proof. split; reflexivity. Qed.

Lemma zip_isolates_decode_failures_witness :
  endsWith ".zip" (originalname Demo.bundle) = true
  /\ Demo.JSZip_loadAsync (buffer Demo.bundle) = Ok Demo.archive
  /\ Forall readable Demo.archive
  /\ decoded_tables Demo.XLSX_rows Demo.pdfParse Demo.archive
     = [ [ [("Name", VStr "john smith"); ("Phone", VStr "555-12-34")] ];
         [ [("tel", VStr "(020) 7946-0958"); ("client", VStr "ada lovelace");
            ("joined", VStr "1843-09-01")] ] ]
  /\ exists records,
       Demo.upload (Some Demo.bundle)
       = Success {| filesProcessed := 2; recordCount := 2; dedupCount := 0;
                    data := records |}.
Proof.
  assert (Hzip : endsWith ".zip" (originalname Demo.bundle) = true) by reflexivity.
  assert (Hload : Demo.JSZip_loadAsync (buffer Demo.bundle) = Ok Demo.archive)
    by reflexivity.
  assert (Hread : Forall readable Demo.archive).
  { unfold Demo.archive.
    repeat (constructor; [right; eexists; reflexivity|]). constructor. }
  repeat (split; [first [assumption|reflexivity]|]).
  eexists.
  exact (zip_isolates_decode_failures JsDate.parse_iso_date Demo.Fuse_search
           Demo.XLSX_rows Demo.pdfParse Demo.JSZip_loadAsync
           Demo.bundle Demo.archive Hzip Hload Hread).
Defined.

Lemma output_record_shape_witness :
  let r := [ ("DATE", VNull); ("FULL NAME", VNull); ("CONTACT", VNull);
             ("ADDRESS", VNull); ("DATA_STATUS", VStr "Valid") ] in
  let body := {| filesProcessed := 1; recordCount := 1; dedupCount := 0;
                 data := [r] |} in
  Demo.upload (Some Demo.single_csv) = Success body
  /\ In r (data body)
  /\ Obj.keys r = OUTPUT_KEYS
  /\ (get r "DATA_STATUS" = VStr "Missing Fields" \/ get r "DATA_STATUS" = VStr "Valid")
  /\ Forall (fun v => v <> VUndefined) (Obj.values r).
Proof.
  cbv zeta.
  assert (Hup : Demo.upload (Some Demo.single_csv)
                = Success {| filesProcessed := 1; recordCount := 1; dedupCount := 0;
                             data := [ [ ("DATE", VNull); ("FULL NAME", VNull);
                                         ("CONTACT", VNull); ("ADDRESS", VNull);
                                         ("DATA_STATUS", VStr "Valid") ] ] |})
    by reflexivity.
  assert (Hin : In [ ("DATE", VNull); ("FULL NAME", VNull); ("CONTACT", VNull);
                     ("ADDRESS", VNull); ("DATA_STATUS", VStr "Valid") ]
                   (data {| filesProcessed := 1; recordCount := 1; dedupCount := 0;
                            data := [ [ ("DATE", VNull); ("FULL NAME", VNull);
                                        ("CONTACT", VNull); ("ADDRESS", VNull);
                                        ("DATA_STATUS", VStr "Valid") ] ] |}))
    by (left; reflexivity).
  split; [exact Hup|]. split; [exact Hin|].
  exact (output_record_shape JsDate.parse_iso_date Demo.Fuse_search Demo.XLSX_rows
           Demo.pdfParse Demo.JSZip_loadAsync _ _ _ Hup Hin).
Defined.

(** ** Reshaping inside an archive *)

Lemma set_target (o : object) (c : target) (v : value) :
  Obj.set o (target_name c) v = Obj.store o (target_name c) v.
Proof. now destruct c. Qed.

Lemma target_name_named (c : target) : Obj.array_index (target_name c) = None.
Proof. now destruct c. Qed.

Lemma target_name_inj (c c' : target) : target_name c = target_name c' -> c = c'.
Proof. destruct c, c'; intros H; try reflexivity; discriminate. Qed.

Lemma has_In (o : object) (k : string) :
  Obj.has o k = true <-> In k (map fst o).
Proof.
  unfold Obj.has. induction o as [|[k' v] o IH]; simpl.
  - split; [discriminate|tauto].
  - destruct (String.eqb_spec k' k) as [->|Hk]; [tauto|].
    rewrite IH. intuition.
Qed.

Lemma has_has_key (o : object) (k : string) :
  Obj.has o k = has_key k (map fst o).
Proof.
  destruct (has_key k (map fst o)) eqn:Hk.
  - now apply has_In, has_key_In.
  - destruct (Obj.has o k) eqn:Hh; [|reflexivity].
    apply has_In, has_key_In in Hh. congruence.
Qed.

Lemma copy_columns_keys (row : object) (es : list (string * target)) :
  forall o cs,
    target_keys cs o ->
    target_keys (cs ++ map snd es) (fold_left (copy_column row) es o).
Proof.
  induction es as [|[old c] es IH]; intros o cs [Hnd Hincl]; simpl.
  - now rewrite app_nil_r.
  - replace (cs ++ c :: map snd es) with ((cs ++ [c]) ++ map snd es)
      by now rewrite <- app_assoc.
    apply IH. unfold copy_column. simpl. rewrite set_target. split.
    + now apply store_NoDup.
    + rewrite store_keys, map_app. simpl.
      destruct (has_key _ _).
      * now apply incl_appl.
      * apply incl_app; [now apply incl_appl|].
        apply incl_appr, incl_refl.
Qed.

Lemma fill_missing_keys (o : object) (c : target) :
  map fst (fill_missing o c)
  = if has_key (target_name c) (map fst o) then map fst o
    else map fst o ++ [target_name c].
Proof.
  unfold fill_missing. rewrite has_has_key, set_target.
  destruct (has_key _ _) eqn:Hk; simpl; [reflexivity|].
  now rewrite store_keys, Hk.
Qed.

Lemma fill_missing_lookup (o : object) (c : target) (k : string) :
  In k (map fst o) -> Obj.lookup (fill_missing o c) k = Obj.lookup o k.
Proof.
  intros Hk. unfold fill_missing. rewrite has_has_key, set_target.
  destruct (has_key _ _) eqn:Hc; simpl; [reflexivity|].
  rewrite store_lookup.
  destruct (String.eqb_spec (target_name c) k) as [<-|_]; [|reflexivity].
  apply has_key_In in Hk. congruence.
Qed.

Lemma fill_all_keys (cs : list target) :
  forall o,
    NoDup (map fst o) ->
    let o' := fold_left fill_missing cs o in
    NoDup (map fst o')
    /\ (forall k, In k (map fst o') <-> In k (map fst o) \/ In k (map target_name cs))
    /\ (forall k, In k (map fst o) -> Obj.lookup o' k = Obj.lookup o k)
    /\ (forall c, In c cs -> ~ In (target_name c) (map fst o) ->
                  Obj.lookup o' (target_name c) = Some VNull).
Proof.
  induction cs as [|c cs IH]; intros o Hnd; simpl.
  - repeat split; try tauto.
  - assert (Hnd' : NoDup (map fst (fill_missing o c))).
    { unfold fill_missing. destruct (negb _); [|assumption].
      rewrite set_target. now apply store_NoDup. }
    assert (Hkeys : forall k, In k (map fst (fill_missing o c))
                              <-> In k (map fst o) \/ k = target_name c).
    { intros k. rewrite fill_missing_keys.
      destruct (has_key _ _) eqn:Hk.
      - apply has_key_In in Hk. split; [tauto|]. intros [H|H]; [|subst k]; assumption.
      - rewrite in_app_iff. simpl. intuition. }
    destruct (IH _ Hnd') as [H1 [H2 [H3 H4]]].
    split; [exact H1|]. split; [|split].
    + intros k. rewrite H2, Hkeys. intuition.
    + intros k Hk. rewrite H3 by (apply Hkeys; tauto).
      now apply fill_missing_lookup.
    + intros c' [<-|Hc'] Hout.
      * rewrite H3 by (apply Hkeys; tauto).
        unfold fill_missing. rewrite has_has_key, set_target.
        destruct (has_key _ _) eqn:Hk; [apply has_key_In in Hk; contradiction|].
        simpl. rewrite store_lookup. now rewrite String.eqb_refl.
      * assert (Hdec : c = c' \/ c <> c')
          by (destruct c, c'; (now left) || (right; discriminate)).
        destruct Hdec as [->|Hne].
        -- rewrite H3 by (apply Hkeys; tauto).
           unfold fill_missing. rewrite has_has_key, set_target.
           destruct (has_key _ _) eqn:Hk; [apply has_key_In in Hk; contradiction|].
           simpl. rewrite store_lookup. now rewrite String.eqb_refl.
        -- apply H4; [assumption|]. rewrite Hkeys. intros [H|H]; [contradiction|].
           apply target_name_inj in H. congruence.
Qed.

Lemma entries_named {V : Type} (o : Obj.t V) :
  (forall k, In k (map fst o) -> Obj.array_index k = None) ->
  Obj.entries o = o.
Proof.
  unfold Obj.entries. induction o as [|[k v] o IH]; intros H; simpl; [reflexivity|].
  rewrite (H k) by (simpl; auto). simpl in IH.
  assert (Ho : forall k0, In k0 (map fst o) -> Obj.array_index k0 = None)
    by (intros k0 Hk0; apply H; simpl; auto).
  specialize (IH Ho).
  assert (Hidx : Obj.index_entries o = []).
  { clear IH. induction o as [|[k1 v1] o IHo]; simpl; [reflexivity|].
    rewrite (Ho k1) by (simpl; auto). apply IHo.
    - intros k0 Hk0. apply H. simpl in *. tauto.
    - intros k0 Hk0. apply Ho. simpl. auto. }
  rewrite Hidx in *. simpl in *. now rewrite IH.
Qed.

Lemma all_targets (c : target) : In c TARGET_COLUMNS.
Proof. destruct c; simpl; auto. Qed.

(** X12.  Inside an archive a row comes out of the mapping with the
    four target keys and no other, and a target no header was mapped to
    holds [null]. *)
Lemma reshape_target_keys (renamedCols : Obj.t target) (row : object) :
  Permutation (Obj.keys (reshape renamedCols row)) (map target_name TARGET_COLUMNS)
  /\ forall c, ~ In c (map snd (Obj.entries renamedCols)) ->
               get (reshape renamedCols row) (target_name c) = VNull.
Proof.
  unfold reshape. cbv zeta.
  set (es := Obj.entries renamedCols).
  set (o1 := fold_left (copy_column row) es []).
  assert (H1 : target_keys ([] ++ map snd es) o1).
  { apply copy_columns_keys. split; [constructor|intros k []]. }
  destruct H1 as [Hnd Hincl]. simpl in Hincl.
  destruct (fill_all_keys TARGET_COLUMNS o1 Hnd) as [Hnd' [Hkeys [_ Hnull]]].
  set (o2 := fold_left fill_missing TARGET_COLUMNS o1) in *.
  assert (Htargets : forall k, In k (map fst o2) <-> In k (map target_name TARGET_COLUMNS)).
  { intros k. rewrite Hkeys. split; [|tauto].
    intros [Hk|Hk]; [|assumption].
    apply Hincl, in_map_iff in Hk. destruct Hk as [c [<- _]].
    apply in_map, all_targets. }
  split.
  - unfold Obj.keys. rewrite entries_named.
    + apply NoDup_Permutation; [assumption| |assumption].
      simpl. repeat constructor; simpl; intuition discriminate.
    + intros k Hk. apply Htargets, in_map_iff in Hk.
      destruct Hk as [c [<- _]]. apply target_name_named.
  - intros c Hc. unfold get. rewrite Hnull; [reflexivity|apply all_targets|].
    intros Hin. apply Hincl, in_map_iff in Hin.
    destruct Hin as [c' [Heq Hin]]. apply target_name_inj in Heq. now subst c'.
Qed.

(* ================================================================= *)
(** * Further properties of the code *)

(** ** Trimming and letter case *)

Lemma trimEnd_idempotent (s : string) : trimEnd (trimEnd s) = trimEnd s.
Proof.
  induction s as [|c s IH]; simpl; [reflexivity|].
  destruct (trimEnd s) as [|d u] eqn:Hu.
  - destruct (is_space c) eqn:Hc; simpl; [reflexivity|]. now rewrite Hc.
  - simpl in IH |- *. now rewrite IH.
Qed.

Lemma trimStart_fixed (s : string) : starts_clean s = true -> trimStart s = s.
Proof.
  destruct s as [|c s]; simpl; [reflexivity|].
  now destruct (is_space c).
Qed.

Lemma trimStart_clean (s : string) : starts_clean (trimStart s) = true.
Proof.
  induction s as [|c s IH]; simpl; [reflexivity|].
  destruct (is_space c) eqn:Hc; [assumption|]. simpl. now rewrite Hc.
Qed.

Lemma trimEnd_clean (s : string) :
  starts_clean s = true -> starts_clean (trimEnd s) = true.
Proof.
  destruct s as [|c s]; simpl; [reflexivity|]. intros Hc.
  apply negb_true_iff in Hc.
  destruct (trimEnd s); [rewrite Hc|]; simpl; now rewrite Hc.
Qed.

Lemma trim_clean (s : string) : starts_clean (trim s) = true.
Proof. apply trimEnd_clean, trimStart_clean. Qed.

Lemma trimEnd_trim (s : string) : trimEnd (trim s) = trim s.
Proof. apply trimEnd_idempotent. Qed.

Lemma trim_idempotent (s : string) : trim (trim s) = trim s.
Proof.
  unfold trim at 1. rewrite (trimStart_fixed _ (trim_clean s)).
  apply trimEnd_trim.
Qed.

Section CharMaps.
Variable f : ascii -> ascii.
Hypothesis f_space : forall c, is_space (f c) = is_space c.

Lemma trimStart_map (s : string) :
  trimStart (map_chars f s) = map_chars f (trimStart s).
Proof.
  induction s as [|c s IH]; simpl; [reflexivity|].
  rewrite f_space. now destruct (is_space c).
Qed.

Lemma trimEnd_map (s : string) :
  trimEnd (map_chars f s) = map_chars f (trimEnd s).
Proof.
  induction s as [|c s IH]; simpl; [reflexivity|].
  rewrite IH, f_space.
  destruct (trimEnd s); simpl; [|reflexivity].
  now destruct (is_space c).
Qed.

Lemma trim_map (s : string) : trim (map_chars f s) = map_chars f (trim s).
Proof. unfold trim. now rewrite trimStart_map, trimEnd_map. Qed.
End CharMaps.

Lemma lower_char_space (c : ascii) : is_space (lower_char c) = is_space c.
Proof. exact (is_space_case c false). Qed.

Lemma lower_char_idempotent (c : ascii) : lower_char (lower_char c) = lower_char c.
Proof. destruct c as [[] [] [] [] [] [] [] []]; reflexivity. Qed.

Lemma toLowerCase_idempotent (s : string) :
  toLowerCase (toLowerCase s) = toLowerCase s.
Proof.
  unfold toLowerCase. induction s as [|c s IH]; simpl; [reflexivity|].
  now rewrite lower_char_idempotent, IH.
Qed.

Lemma normal_header_fixed (header : string) :
  trim (toLowerCase (trim (toLowerCase header))) = trim (toLowerCase header).
Proof.
  unfold toLowerCase at 1.
  rewrite <- (trim_map lower_char lower_char_space).
  fold (toLowerCase (toLowerCase header)).
  now rewrite toLowerCase_idempotent, trim_idempotent.
Qed.

(** X1.  The column mapper does not tell a header from its lower-cased,
    trimmed form: letter case and white space around a header never
    change the column it is mapped to. *)
Theorem aiMapColumn_ignores_case_and_padding
        (Fuse_search : list string -> string -> list fuse_result) (header : string) :
  aiMapColumn Fuse_search (trim (toLowerCase header))
  = aiMapColumn Fuse_search header.
Proof.
  unfold aiMapColumn. now rewrite normal_header_fixed.
Qed.

(** ** The cleaners applied twice *)

Lemma all_chars_strip (p : ascii -> bool) (s : string) :
  all_chars p (strip p s) = true.
Proof.
  induction s as [|c s IH]; simpl; [reflexivity|].
  destruct (p c) eqn:Hc; simpl; [now rewrite Hc|assumption].
Qed.

Lemma strip_fixed (p : ascii -> bool) (s : string) :
  all_chars p s = true -> strip p s = s.
Proof.
  induction s as [|c s IH]; simpl; [reflexivity|].
  intros H. apply andb_prop in H. destruct H as [Hc Hs].
  now rewrite Hc, IH.
Qed.

Lemma all_chars_trimStart (p : ascii -> bool) (s : string) :
  all_chars p s = true -> all_chars p (trimStart s) = true.
Proof.
  induction s as [|c s IH]; simpl; [reflexivity|].
  intros H. destruct (is_space c); [|exact H].
  apply andb_prop in H. now apply IH.
Qed.

Lemma all_chars_trimEnd (p : ascii -> bool) (s : string) :
  all_chars p s = true -> all_chars p (trimEnd s) = true.
Proof.
  induction s as [|c s IH]; simpl; [reflexivity|].
  intros H. apply andb_prop in H. destruct H as [Hc Hs]. specialize (IH Hs).
  destruct (trimEnd s); simpl.
  - destruct (is_space c); simpl; [reflexivity|now rewrite Hc].
  - simpl in IH. now rewrite Hc, IH.
Qed.

Lemma all_chars_trim (p : ascii -> bool) (s : string) :
  all_chars p s = true -> all_chars p (trim s) = true.
Proof. intros H. now apply all_chars_trimEnd, all_chars_trimStart. Qed.

Lemma name_char_case (c : ascii) (start : bool) :
  name_char (if start then upper_char c else lower_char c) = name_char c.
Proof.
  destruct start; destruct c as [[] [] [] [] [] [] [] []]; reflexivity.
Qed.

Lemma case_is_space_char (c : ascii) (start : bool) :
  Ascii.eqb (if start then upper_char c else lower_char c) " " = Ascii.eqb c " ".
Proof.
  destruct start; destruct c as [[] [] [] [] [] [] [] []]; reflexivity.
Qed.

Lemma case_idempotent (c : ascii) (start : bool) :
  (if start then upper_char (if start then upper_char c else lower_char c)
   else lower_char (if start then upper_char c else lower_char c))
  = (if start then upper_char c else lower_char c).
Proof.
  destruct start; destruct c as [[] [] [] [] [] [] [] []]; reflexivity.
Qed.

Lemma recase_name_chars (s : string) :
  forall start, all_chars name_char (recase start s) = all_chars name_char s.
Proof.
  induction s as [|c s IH]; intros start; simpl; [reflexivity|].
  now rewrite name_char_case, IH.
Qed.

Lemma recase_idempotent (s : string) :
  forall start, recase start (recase start s) = recase start s.
Proof.
  induction s as [|c s IH]; intros start; simpl; [reflexivity|].
  now rewrite case_idempotent, case_is_space_char, IH.
Qed.

Lemma recase_clean (s : string) (start : bool) :
  starts_clean (recase start s) = starts_clean s.
Proof.
  destruct s as [|c s]; simpl; [reflexivity|]. now rewrite is_space_case.
Qed.

Lemma recase_empty (s : string) (start : bool) :
  recase start s = "" -> s = "".
Proof. destruct s; simpl; [reflexivity|discriminate]. Qed.

Lemma trimEnd_recase (s : string) :
  forall start, trimEnd (recase start s) = recase start (trimEnd s).
Proof.
  induction s as [|c s IH]; intros start; simpl; [reflexivity|].
  rewrite IH, is_space_case.
  destruct (trimEnd s) as [|d u]; simpl; [|reflexivity].
  now destruct (is_space c).
Qed.

Lemma cleanName_string (s : string) :
  let clean := trim (strip name_char s) in
  cleanName (VStr s) = if String.eqb clean "" then VNull else VStr (recase true clean).
Proof.
  cbv zeta. unfold cleanName. simpl truthy.
  destruct (String.eqb _ ""); simpl; [reflexivity|]. now rewrite recase_join.
Qed.

Lemma cleanName_of_clean (s : string) :
  all_chars name_char s = true -> trim s = s -> s <> "" ->
  cleanName (VStr s) = VStr (recase true s).
Proof.
  intros Hchars Htrim Hne. rewrite cleanName_string.
  rewrite (strip_fixed _ _ Hchars), Htrim.
  now destruct (String.eqb_spec s "").
Qed.

(** X2.  Cleaning a name a second time changes nothing: what the name
    cleaner returns is a fixed point of it, for every raw value. *)
Theorem cleanName_idempotent (val : value) :
  cleanName (cleanName val) = cleanName val.
Proof.
  destruct val as [| |b|n|s]; try reflexivity.
  rewrite cleanName_string.
  set (clean := trim (strip name_char s)).
  destruct (String.eqb_spec clean "") as [E|Hne]; [reflexivity|].
  - assert (Hchars : all_chars name_char clean = true)
      by apply all_chars_trim, all_chars_strip.
    rewrite cleanName_of_clean.
    + now rewrite recase_idempotent.
    + now rewrite recase_name_chars.
    + unfold trim. rewrite trimStart_fixed
        by (rewrite recase_clean; apply trim_clean).
      rewrite trimEnd_recase. unfold clean. now rewrite trimEnd_trim.
    + intros H. apply recase_empty in H. contradiction.
Qed.

(** X3.  The name cleaner returns [null] or a non-empty string made of
    ASCII letters and white space only, with no white space at either
    end. *)
Theorem cleanName_alphabet (val : value) :
  cleanName val = VNull
  \/ exists name, cleanName val = VStr name
                  /\ name <> ""
                  /\ all_chars name_char name = true
                  /\ trim name = name.
Proof.
  destruct val as [| |b|n|s]; try (left; reflexivity).
  rewrite cleanName_string.
  set (clean := trim (strip name_char s)).
  destruct (String.eqb_spec clean "") as [E|Hne]; [now left|].
  right. exists (recase true clean).
  split; [reflexivity|]. split; [|split].
    + intros H. apply recase_empty in H. contradiction.
    + rewrite recase_name_chars. apply all_chars_trim, all_chars_strip.
    + unfold trim. rewrite trimStart_fixed
        by (rewrite recase_clean; apply trim_clean).
      rewrite trimEnd_recase. unfold clean. now rewrite trimEnd_trim.
Qed.

Lemma strip_length (p : ascii -> bool) (s : string) :
  all_chars p s = true -> String.length (strip p s) = String.length s.
Proof. intros H. now rewrite strip_fixed. Qed.

(** X4.  The contact cleaner returns [null] or a string of six or more
    decimal digits and nothing else, and cleaning its result again
    returns the same. *)
Theorem cleanPhone_shape (val : value) :
  (cleanPhone val = VNull
   \/ exists digits, cleanPhone val = VStr digits
                     /\ all_chars is_digit digits = true
                     /\ 6 <= String.length digits)
  /\ cleanPhone (cleanPhone val) = cleanPhone val.
Proof.
  assert (Hstr : forall s,
             (cleanPhone (VStr s) = VNull
              \/ exists digits, cleanPhone (VStr s) = VStr digits
                                /\ all_chars is_digit digits = true
                                /\ 6 <= String.length digits)
             /\ cleanPhone (cleanPhone (VStr s)) = cleanPhone (VStr s)).
  { intros s.
    assert (E : cleanPhone (VStr s)
                = if Nat.ltb 5 (String.length (strip is_digit s))
                  then VStr (strip is_digit s) else VNull) by reflexivity.
    rewrite E.
    destruct (Nat.ltb_spec 5 (String.length (strip is_digit s))) as [Hlen|Hlen].
    - split.
      + right. eexists. split; [reflexivity|]. split; [apply all_chars_strip|lia].
      + unfold cleanPhone. simpl ToString.
        rewrite (strip_fixed is_digit (strip is_digit s)) by apply all_chars_strip.
        destruct (Nat.ltb_spec 5 (String.length (strip is_digit s))); [reflexivity|lia].
    - split; [now left|reflexivity]. }
  destruct val as [| |b|n|s]; try (split; [now left|reflexivity]).
  - apply (Hstr (ToString (VBool b))).
  - apply (Hstr (ToString (VNum n))).
  - apply Hstr.
Qed.

(** ** The fuzzy tier of the column mapper *)

Section FuzzyTier.
Variable Fuse_search : list string -> string -> list fuse_result.

(** The score of a result is NaN, so neither comparison holds and a
    turn of the second loop leaves the state as it was. *)
Lemma fuzzy_step_idle (header : string) (st : option target * number)
      (m : target * list string) :
  fuzzy_step Fuse_search header st m = st.
Proof.
  unfold fuzzy_step. now destruct (Fuse_search (snd m) header).
Qed.

Lemma fuzzy_loop_idle (header : string) (l : list (target * list string)) :
  forall st, fold_left (fuzzy_step Fuse_search header) l st = st.
Proof.
  induction l as [|m l IH]; intros st; simpl; [reflexivity|].
  now rewrite fuzzy_step_idle.
Qed.

Lemma direct_none (l : list (target * list string)) (h : string) :
  direct l h = None <-> forall m, In m l -> ~ In h (snd m).
Proof.
  induction l as [|[t synonyms] l IH]; simpl.
  - split; [intros _ m []|reflexivity].
  - unfold includes. destruct (existsb (String.eqb h) synonyms) eqn:Hex.
    + split; [discriminate|]. intros H. exfalso.
      apply (H (t, synonyms)); [now left|]. simpl.
      apply existsb_exists in Hex. destruct Hex as [x [Hin Heq]].
      apply String.eqb_eq in Heq. now subst.
    + rewrite IH. split.
      * intros H m [<-|Hin]; [|now apply H]. simpl. intros Hin.
        assert (Ht : existsb (String.eqb h) synonyms = true)
          by (apply existsb_exists; exists h; split; [assumption|apply String.eqb_refl]).
        congruence.
      * intros H m Hin. apply H. now right.
Qed.

Lemma direct_some (l : list (target * list string)) (h : string) (t : target) :
  direct l h = Some t -> exists synonyms, In (t, synonyms) l /\ In h synonyms.
Proof.
  induction l as [|[t' synonyms] l IH]; simpl; [discriminate|].
  unfold includes. destruct (existsb (String.eqb h) synonyms) eqn:Hex.
  - intros H. injection H as <-. exists synonyms. split; [now left|].
    apply existsb_exists in Hex. destruct Hex as [x [Hin Heq]].
    apply String.eqb_eq in Heq. now subst.
  - intros H. destruct (IH H) as [syn [Hin Hh]]. exists syn. auto.
Qed.

Lemma aiMapColumn_is_direct (header : string) :
  aiMapColumn Fuse_search header
  = direct COLUMN_MAPPINGS (trim (toLowerCase header)).
Proof.
  unfold aiMapColumn. destruct (direct COLUMN_MAPPINGS _); [reflexivity|].
  now rewrite fuzzy_loop_idle.
Qed.
End FuzzyTier.

(** X5.  The column mapper returns a column only through its exact
    tier.  The score read off a Fuse result is [undefined], the score
    computed from it is NaN, and both comparisons of the second loop
    fail; so the mapper returns the owner of the synonym list that
    holds the normalized header, and [null] exactly when no list holds
    it, whatever Fuse finds. *)
Theorem aiMapColumn_exact_only
        (Fuse_search : list string -> string -> list fuse_result) (header : string) :
  let h := trim (toLowerCase header) in
  (aiMapColumn Fuse_search header = None
   <-> forall m, In m COLUMN_MAPPINGS -> ~ In h (snd m))
  /\ forall t, aiMapColumn Fuse_search header = Some t
               <-> exists synonyms, In (t, synonyms) COLUMN_MAPPINGS /\ In h synonyms.
Proof.
  cbv zeta. rewrite aiMapColumn_is_direct. split.
  - apply direct_none.
  - intros t. split.
    + apply direct_some.
    + intros [synonyms [Hm Hs]]. eapply direct_owner; eassumption.
Qed.

(** A header one letter short of a synonym: Fuse finds "phone" for it
    and the mapper still returns [null]. *)
Example near_miss_is_not_mapped : aiMapColumn Fuse_typo " Phon" = None.
Proof. reflexivity. Qed.

(** ** More on de-duplication *)

Lemma dedup_keys (l : list object) :
  map identity_key (dedup l) = map fst (fold_left put (map keyed l) []).
Proof.
  rewrite dedup_unfold, map_map.
  pose proof (keyed_entries l [] (Forall_nil _)) as Hk.
  rewrite Forall_forall in Hk.
  apply map_ext_in. intros kv Hin. symmetry. now apply Hk.
Qed.

Lemma dedup_keys_NoDup (l : list object) : NoDup (map identity_key (dedup l)).
Proof. rewrite dedup_keys. apply fold_put_NoDup. constructor. Qed.

Lemma first_seen_In (keys : list string) :
  forall seen k, In k (first_seen seen keys) <-> In k keys /\ ~ In k seen.
Proof.
  induction keys as [|k0 keys IH]; intros seen k; simpl; [tauto|].
  fold (has_key k0 seen).
  destruct (has_key k0 seen) eqn:Hk0.
  - apply has_key_In in Hk0. rewrite IH. split; [tauto|].
    intros [[<-|H] Hn]; [contradiction|tauto].
  - assert (Hn0 : ~ In k0 seen)
      by (intros H; apply has_key_In in H; congruence).
    simpl. rewrite IH. simpl. split.
    + intros [<-|[H1 H2]]; [tauto|]. tauto.
    + intros [[<-|H] Hn]; [now left|].
      destruct (string_dec k0 k) as [->|Hne]; [now left|]. right. tauto.
Qed.

(** X7.  After de-duplication no two records have the same identity
    key, every identity key of the input is still there, and no new
    one appears. *)
Theorem dedup_keys_exactly_once (l : list object) :
  NoDup (map identity_key (dedup l))
  /\ forall k, In k (map identity_key (dedup l)) <-> In k (map identity_key l).
Proof.
  split; [apply dedup_keys_NoDup|].
  intros k. rewrite dedup_keys, fold_put_keys. simpl.
  assert (Hmap : map fst (map keyed l) = map identity_key l)
    by (rewrite map_map; reflexivity).
  rewrite Hmap, first_seen_In. simpl. tauto.
Qed.

Lemma store_fresh {V : Type} (m : Obj.t V) (k : string) (v : V) :
  ~ In k (map fst m) -> Obj.store m k v = m ++ [(k, v)].
Proof.
  induction m as [|[k' v'] m IH]; simpl; [reflexivity|].
  intros H. destruct (String.eqb_spec k' k) as [->|_]; [tauto|].
  rewrite IH by tauto. reflexivity.
Qed.

Lemma fold_put_distinct {V : Type} (pairs : list (string * V)) :
  forall m, NoDup (map fst (m ++ pairs)) -> fold_left put pairs m = m ++ pairs.
Proof.
  induction pairs as [|[k v] pairs IH]; intros m Hnd; simpl.
  - now rewrite app_nil_r.
  - unfold put at 2. simpl.
    rewrite map_app in Hnd. simpl in Hnd.
    rewrite store_fresh.
    + rewrite IH; rewrite <- app_assoc; [reflexivity|].
      simpl. now rewrite map_app.
    + apply NoDup_remove_2 in Hnd. intros H. apply Hnd.
      apply in_or_app. now left.
Qed.

Lemma dedup_distinct (l : list object) :
  NoDup (map identity_key l) -> dedup l = l.
Proof.
  intros Hnd. rewrite dedup_unfold, fold_put_distinct.
  - simpl. rewrite map_map. simpl. apply map_id.
  - simpl. rewrite map_map. exact Hnd.
Qed.

(** X8.  De-duplicating a second time changes nothing. *)
Theorem dedup_idempotent (l : list object) : dedup (dedup l) = dedup l.
Proof. apply dedup_distinct, dedup_keys_NoDup. Qed.

Lemma dedup_length (l : list object) : List.length (dedup l) <= List.length l.
Proof.
  rewrite <- (length_map identity_key (dedup l)), <- (length_map identity_key l).
  apply NoDup_incl_length; [apply dedup_keys_NoDup|].
  intros k Hk. rewrite dedup_keys, fold_put_keys in Hk. simpl in Hk.
  apply first_seen_In in Hk. destruct Hk as [Hk _].
  now rewrite map_map in Hk.
Qed.

Section Counts.
Variable Date_parse : string -> option Z.
Variable Fuse_search : list string -> string -> list fuse_result.
Variable XLSX_rows : string -> result (list object).
Variable pdfParse : string -> result string.
Variable JSZip_loadAsync : string -> result (list zip_entry).

(** X9.  When the rows of an upload were collected, the answer is a
    success whose [recordCount] is the number of records sent, whose
    [recordCount] and [dedupCount] add up to the number of rows
    collected, and whose records are all cleaned rows of the input. *)
Theorem upload_counts (file : upload_file) (allData : list object) (n : nat) :
  collect Fuse_search XLSX_rows pdfParse JSZip_loadAsync file = Ok (allData, n) ->
  exists body,
    upload Date_parse Fuse_search XLSX_rows pdfParse JSZip_loadAsync (Some file)
    = Success body
    /\ filesProcessed body = n
    /\ recordCount body = List.length (data body)
    /\ recordCount body + dedupCount body = List.length allData
    /\ Forall (fun r => exists row, In row allData /\ r = clean_row Date_parse row)
              (data body).
Proof.
  intros Hc. unfold upload. rewrite Hc. eexists. split; [reflexivity|]. simpl.
  split; [reflexivity|]. split; [reflexivity|]. split.
  - pose proof (dedup_length (map (clean_row Date_parse) allData)) as H.
    rewrite length_map in *. lia.
  - apply Forall_forall. intros r Hr. apply dedup_In, in_map_iff in Hr.
    destruct Hr as [row [<- Hin]]. eauto.
Qed.
End Counts.

Lemma upload_counts_witness :
  collect Demo.Fuse_search Demo.XLSX_rows Demo.pdfParse Demo.JSZip_loadAsync
          Demo.bundle
  = Ok ([ [ ("FULL NAME", VStr "john smith"); ("CONTACT", VStr "555-12-34");
            ("DATE", VNull); ("ADDRESS", VNull) ];
          [ ("CONTACT", VStr "(020) 7946-0958"); ("FULL NAME", VStr "ada lovelace");
            ("DATE", VStr "1843-09-01"); ("ADDRESS", VNull) ] ], 2)
  /\ exists body,
       Demo.upload (Some Demo.bundle) = Success body
       /\ filesProcessed body = 2
       /\ recordCount body + dedupCount body = 2.
Proof.
  assert (Hc : collect Demo.Fuse_search Demo.XLSX_rows Demo.pdfParse
                       Demo.JSZip_loadAsync Demo.bundle
               = Ok ([ [ ("FULL NAME", VStr "john smith"); ("CONTACT", VStr "555-12-34");
                         ("DATE", VNull); ("ADDRESS", VNull) ];
                       [ ("CONTACT", VStr "(020) 7946-0958");
                         ("FULL NAME", VStr "ada lovelace");
                         ("DATE", VStr "1843-09-01"); ("ADDRESS", VNull) ] ], 2))
    by reflexivity.
  split; [exact Hc|].
  destruct (upload_counts JsDate.parse_iso_date Demo.Fuse_search Demo.XLSX_rows
              Demo.pdfParse Demo.JSZip_loadAsync _ _ _ Hc)
    as [body [Hup [Hn [_ [Hsum _]]]]].
  exists body. auto.
Defined.

(** ** The shape of a cleaned date *)

Lemma all_chars_app (p : ascii -> bool) (a b : string) :
  all_chars p (a ++ b) = (all_chars p a && all_chars p b)%bool.
Proof.
  induction a as [|c a IH]; simpl; [reflexivity|].
  now rewrite IH, andb_assoc.
Qed.

Lemma all_chars_weaken (p q : ascii -> bool) (s : string) :
  (forall c, p c = true -> q c = true) ->
  all_chars p s = true -> all_chars q s = true.
Proof.
  intros Hpq. induction s as [|c s IH]; simpl; [reflexivity|].
  intros H. apply andb_prop in H. destruct H as [Hc Hs].
  now rewrite (Hpq c Hc), IH.
Qed.

Lemma string_app_assoc (a b c : string) :
  ((a ++ b) ++ c = a ++ (b ++ c))%string.
Proof. induction a as [|x a IH]; simpl; [reflexivity|]. now rewrite IH. Qed.

Lemma uint_digits (d : Decimal.uint) :
  all_chars is_digit (NilEmpty.string_of_uint d) = true.
Proof. induction d; simpl; auto. Qed.

Lemma of_Z_chars (n : Z) : all_chars date_char (of_Z n) = true.
Proof.
  assert (Hu : forall d, all_chars date_char (NilZero.string_of_uint d) = true).
  { intros d. destruct d; try reflexivity;
      apply (all_chars_weaken is_digit); try apply uint_digits;
      intros c Hc; unfold date_char; now rewrite Hc. }
  unfold of_Z, NilZero.string_of_int.
  destruct (Z.to_int n); [apply Hu|]. simpl. apply Hu.
Qed.

Lemma zeros_chars (k : nat) : all_chars date_char (zeros k) = true.
Proof. induction k; simpl; auto. Qed.

Lemma pad0_chars (width : nat) (n : Z) : all_chars date_char (pad0 width n) = true.
Proof.
  unfold pad0. now rewrite all_chars_app, zeros_chars, of_Z_chars.
Qed.

Lemma year_string_chars (y : Z) : all_chars date_char (JsDate.year_string y) = true.
Proof.
  unfold JsDate.year_string.
  destruct (_ && _)%bool; [apply pad0_chars|].
  rewrite all_chars_app, pad0_chars. now destruct (y <? 0)%Z.
Qed.

Lemma split_head (sep : ascii) (a rest : string) :
  all_chars (fun c => negb (Ascii.eqb c sep)) a = true ->
  hd "" (split sep (a ++ String sep rest)) = a.
Proof.
  induction a as [|c a IH]; simpl.
  - now rewrite Ascii.eqb_refl.
  - intros H. apply andb_prop in H. destruct H as [Hc Ha].
    apply negb_true_iff in Hc. rewrite Hc.
    specialize (IH Ha).
    destruct (split sep (a ++ String sep rest)); simpl in *; now subst.
Qed.

Lemma iso_date_part (t : Z) :
  exists date,
    hd "" (split "T" (JsDate.toISOString t)) = date
    /\ all_chars date_char date = true.
Proof.
  unfold JsDate.toISOString.
  destruct (JsDate.civil_from_days (t / JsDate.msPerDay)) as [[y m] d].
  set (date := (JsDate.year_string y ++ "-" ++ pad0 2 m ++ "-" ++ pad0 2 d)%string).
  assert (Hdate : all_chars date_char date = true).
  { unfold date. rewrite !all_chars_app, year_string_chars, !pad0_chars.
    reflexivity. }
  exists date. split; [|exact Hdate].
  match goal with
  | |- hd "" (split "T" ?s) = _ =>
      replace s with (date ++ String "T" (pad0 2 (t mod JsDate.msPerDay / 3600000)
                        ++ ":" ++ pad0 2 (t mod JsDate.msPerDay / 60000 mod 60)
                        ++ ":" ++ pad0 2 (t mod JsDate.msPerDay / 1000 mod 60)
                        ++ "." ++ pad0 3 (t mod JsDate.msPerDay mod 1000) ++ "Z"))%string
  end.
  - apply split_head.
    apply (all_chars_weaken date_char); [|exact Hdate].
    intros c Hc. destruct c as [[] [] [] [] [] [] [] []]; try reflexivity; discriminate.
  - unfold date. rewrite !string_app_assoc. reflexivity.
Qed.

(** X10.  The date cleaner returns [null] or a string of digits,
    hyphens and at most a sign: the time of day, the [T] and the [Z]
    of the ISO time stamp are never part of it. *)
Theorem cleanDate_shape (Date_parse : string -> option Z) (val : value) :
  cleanDate Date_parse val = VNull
  \/ exists date, cleanDate Date_parse val = VStr date
                  /\ all_chars date_char date = true.
Proof.
  unfold cleanDate. destruct (new_Date Date_parse val) as [t|]; [|now left].
  right. destruct (iso_date_part t) as [date [-> Hdate]]. eauto.
Qed.

(** ** The identity key tells cleaned records apart *)

Lemma split_at_hyphen (a b r1 r2 : string) :
  all_chars not_hyphen a = true -> all_chars not_hyphen b = true ->
  (a ++ "-" ++ r1 = b ++ "-" ++ r2)%string ->
  a = b /\ r1 = r2.
Proof.
  revert b. induction a as [|c a IH]; intros [|d b] Ha Hb H; simpl in *.
  - injection H as ->. auto.
  - injection H as <- _. discriminate.
  - injection H as -> _. discriminate.
  - injection H as -> H.
    apply andb_prop in Ha. apply andb_prop in Hb.
    destruct (IH b) as [-> ->]; tauto.
Qed.

Lemma upper_char_not_n (c : ascii) : upper_char c <> "n"%char.
Proof. destruct c as [[] [] [] [] [] [] [] []]; discriminate. Qed.

Lemma cleanName_range (val : value) :
  cleanName val = VNull
  \/ exists name, cleanName val = VStr name
                  /\ all_chars not_hyphen name = true /\ name <> "null".
Proof.
  destruct val as [| |b|n|s]; try (left; reflexivity).
  rewrite cleanName_string.
  set (clean := trim (strip name_char s)).
  destruct (String.eqb_spec clean "") as [E|Hne]; [now left|].
  right. exists (recase true clean). split; [reflexivity|]. split.
  - apply (all_chars_weaken name_char).
    + intros c Hc. destruct c as [[] [] [] [] [] [] [] []]; try reflexivity; discriminate.
    + rewrite recase_name_chars. apply all_chars_trim, all_chars_strip.
  - destruct clean as [|c rest]; [contradiction|]. simpl.
    intros H. injection H as H _. now apply upper_char_not_n in H.
Qed.

Lemma cleanPhone_range (val : value) :
  cleanPhone val = VNull
  \/ exists digits, cleanPhone val = VStr digits
                    /\ all_chars is_digit digits = true.
Proof.
  assert (Hstr : forall s,
             cleanPhone (VStr s) = VNull
             \/ exists digits, cleanPhone (VStr s) = VStr digits
                               /\ all_chars is_digit digits = true).
  { intros s. unfold cleanPhone. simpl ToString.
    destruct (Nat.ltb _ _); [|now left].
    right. eexists. split; [reflexivity|apply all_chars_strip]. }
  destruct val as [| |b|n|s]; try (left; reflexivity).
  - apply (Hstr (ToString (VBool b))).
  - apply (Hstr (ToString (VNum n))).
  - apply Hstr.
Qed.

Lemma digits_no_hyphen (s : string) :
  all_chars is_digit s = true -> all_chars not_hyphen s = true.
Proof.
  apply all_chars_weaken. intros c Hc.
  destruct c as [[] [] [] [] [] [] [] []]; try reflexivity; discriminate.
Qed.

Lemma ToString_printable (u v : value) :
  printable u -> printable v -> ToString u = ToString v -> u = v.
Proof.
  intros [->|[s [-> Hs]]] [->|[s' [-> Hs']]]; simpl; intros H;
    try reflexivity; try congruence.
Qed.

Lemma cleanName_printable (val : value) : printable (cleanName val).
Proof.
  destruct (cleanName_range val) as [->|[name [-> [_ Hn]]]];
    [now left|right; eauto].
Qed.

Lemma cleanPhone_printable (val : value) : printable (cleanPhone val).
Proof.
  destruct (cleanPhone_range val) as [->|[digits [-> Hd]]]; [now left|].
  right. exists digits. split; [reflexivity|]. intros ->. discriminate.
Qed.

Lemma cleanDate_printable (Date_parse : string -> option Z) (val : value) :
  printable (cleanDate Date_parse val).
Proof.
  unfold cleanDate. destruct (new_Date Date_parse val) as [t|]; [|now left].
  right. destruct (iso_date_part t) as [date [-> Hdate]].
  exists date. split; [reflexivity|]. intros ->. discriminate.
Qed.

Lemma ToString_no_hyphen_name (val : value) :
  all_chars not_hyphen (ToString (cleanName val)) = true.
Proof.
  destruct (cleanName_range val) as [->|[name [-> [Hn _]]]]; [reflexivity|exact Hn].
Qed.

Lemma ToString_no_hyphen_phone (val : value) :
  all_chars not_hyphen (ToString (cleanPhone val)) = true.
Proof.
  destruct (cleanPhone_range val) as [->|[digits [-> Hd]]]; [reflexivity|].
  now apply digits_no_hyphen.
Qed.

(** X11.  Two cleaned records have the same identity key only if their
    cleaned name, contact and date are the same: neither the hyphens
    of the key nor the printing of [null] can merge records that
    differ in one of the three. *)
Theorem identity_key_injective (Date_parse : string -> option Z) (a b : object) :
  identity_key (clean_row Date_parse a) = identity_key (clean_row Date_parse b) ->
  get (clean_row Date_parse a) "FULL NAME" = get (clean_row Date_parse b) "FULL NAME"
  /\ get (clean_row Date_parse a) "CONTACT" = get (clean_row Date_parse b) "CONTACT"
  /\ get (clean_row Date_parse a) "DATE" = get (clean_row Date_parse b) "DATE".
Proof.
  intros H.
  change (ToString (cleanName (get a "FULL NAME")) ++ "-"
          ++ ToString (cleanPhone (get a "CONTACT")) ++ "-"
          ++ ToString (cleanDate Date_parse (get a "DATE"))
          = ToString (cleanName (get b "FULL NAME")) ++ "-"
            ++ ToString (cleanPhone (get b "CONTACT")) ++ "-"
            ++ ToString (cleanDate Date_parse (get b "DATE")))%string in H.
  change (cleanName (get a "FULL NAME") = cleanName (get b "FULL NAME")
          /\ cleanPhone (get a "CONTACT") = cleanPhone (get b "CONTACT")
          /\ cleanDate Date_parse (get a "DATE") = cleanDate Date_parse (get b "DATE")).
  apply split_at_hyphen in H; try apply ToString_no_hyphen_name.
  destruct H as [Hname H].
  apply split_at_hyphen in H; try apply ToString_no_hyphen_phone.
  destruct H as [Hphone Hdate].
  split; [|split].
  - apply ToString_printable; auto using cleanName_printable.
  - apply ToString_printable; auto using cleanPhone_printable.
  - apply ToString_printable; auto using cleanDate_printable.
Qed.

Lemma identity_key_injective_witness :
  let row address :=
    [ ("DATE", VStr "2020-01-05"); ("FULL NAME", VStr "john smith");
      ("CONTACT", VStr "555-12-34"); ("ADDRESS", VStr address) ] in
  identity_key (Demo.clean_row (row "1 Main St"))
  = identity_key (Demo.clean_row (row "9 Elm Rd"))
  /\ get (Demo.clean_row (row "1 Main St")) "FULL NAME"
     = get (Demo.clean_row (row "9 Elm Rd")) "FULL NAME".
Proof.
  cbv zeta.
  assert (H : identity_key (Demo.clean_row
                              [ ("DATE", VStr "2020-01-05"); ("FULL NAME", VStr "john smith");
                                ("CONTACT", VStr "555-12-34"); ("ADDRESS", VStr "1 Main St") ])
              = identity_key (Demo.clean_row
                                [ ("DATE", VStr "2020-01-05"); ("FULL NAME", VStr "john smith");
                                  ("CONTACT", VStr "555-12-34"); ("ADDRESS", VStr "9 Elm Rd") ]))
    by reflexivity.
  split; [exact H|].
  exact (proj1 (identity_key_injective JsDate.parse_iso_date _ _ H)).
Defined.

(** ** What a reshaped row holds *)

Lemma lookup_keys {V : Type} (o : Obj.t V) (k : string) :
  Obj.lookup o k = None <-> ~ In k (map fst o).
Proof.
  induction o as [|[k' v] o IH]; simpl; [tauto|].
  destruct (String.eqb_spec k' k) as [->|Hk].
  - split; [discriminate|tauto].
  - rewrite IH. tauto.
Qed.

Lemma lookup_Some_In {V : Type} (o : Obj.t V) (k : string) (v : V) :
  Obj.lookup o k = Some v -> In (k, v) o.
Proof.
  induction o as [|[k' v'] o IH]; simpl; [discriminate|].
  destruct (String.eqb_spec k' k) as [->|Hk].
  - intros H. injection H as ->. now left.
  - intros H. right. now apply IH.
Qed.

Lemma copy_columns_put (row : object) (es : list (string * target)) :
  forall o,
    fold_left (copy_column row) es o
    = fold_left put (map (fun on => (target_name (snd on), get row (fst on))) es) o.
Proof.
  induction es as [|[old c] es IH]; intros o; simpl; [reflexivity|].
  rewrite IH. unfold copy_column, put. simpl. now rewrite set_target.
Qed.

Lemma reshape_inv (renamedCols : Obj.t target) (row : object) :
  let o := reshape renamedCols row in
  NoDup (map fst o)
  /\ (forall k, In k (map fst o) <-> In k (map target_name TARGET_COLUMNS))
  /\ forall c, Obj.lookup o (target_name c)
               = Some match source_of renamedCols c with
                      | Some on => get row (fst on)
                      | None => VNull
                      end.
Proof.
  cbv zeta. unfold reshape, source_of.
  set (es := Obj.entries renamedCols).
  set (o1 := fold_left (copy_column row) es []).
  assert (H1 : target_keys ([] ++ map snd es) o1).
  { apply copy_columns_keys. split; [constructor|intros k []]. }
  destruct H1 as [Hnd Hincl]. simpl in Hincl.
  destruct (fill_all_keys TARGET_COLUMNS o1 Hnd) as [Hnd' [Hkeys [Hkeep Hnull]]].
  split; [exact Hnd'|]. split.
  - intros k. rewrite Hkeys. split; [|tauto].
    intros [Hk|Hk]; [|assumption].
    apply Hincl, in_map_iff in Hk. destruct Hk as [c [<- _]].
    apply in_map, all_targets.
  - intros c.
    assert (Ho1 : Obj.lookup o1 (target_name c)
                  = match find (fun on => String.eqb (target_name (snd on)) (target_name c))
                               (rev es) with
                    | Some on => Some (get row (fst on))
                    | None => None
                    end).
    { unfold o1. rewrite copy_columns_put, fold_put_lookup, <- map_rev, find_map.
      simpl. now destruct (find _ (rev es)). }
    destruct (find _ (rev es)) as [on|].
    + rewrite Hkeep; [exact Ho1|].
      destruct (In_dec string_dec (target_name c) (map fst o1)) as [Hin|Hout];
        [assumption|]. apply lookup_keys in Hout. congruence.
    + apply Hnull; [apply all_targets|]. now apply lookup_keys.
Qed.

(** X13.  Inside an archive the value of a target column in a reshaped
    row is the row's value under the last header mapped to that column
    ([undefined] when the row lacks that header), and [null] when no
    header of the table was mapped to it. *)
Theorem reshape_values (renamedCols : Obj.t target) (row : object) (c : target) :
  get (reshape renamedCols row) (target_name c)
  = match source_of renamedCols c with
    | Some on => get row (fst on)
    | None => VNull
    end.
Proof.
  destruct (reshape_inv renamedCols row) as [_ [_ H]].
  unfold get at 1. now rewrite H.
Qed.

Lemma reshape_null (renamedCols : Obj.t target) (row : object) :
  (exists k, In (k, VNull) (reshape renamedCols row))
  <-> exists c, get (reshape renamedCols row) (target_name c) = VNull.
Proof.
  destruct (reshape_inv renamedCols row) as [Hnd [Hkeys Hval]]. split.
  - intros [k Hin].
    assert (Hk : In k (map fst (reshape renamedCols row)))
      by (apply in_map_iff; exists (k, VNull); auto).
    apply Hkeys, in_map_iff in Hk. destruct Hk as [c [<- _]].
    exists c. unfold get. now rewrite (lookup_In _ _ _ Hnd Hin).
  - intros [c Hc]. exists (target_name c). apply lookup_Some_In.
    unfold get in Hc. rewrite Hval in *. now rewrite Hc.
Qed.

(** X14.  A row of a table inside an archive is tagged "Missing Fields"
    exactly when one of its four reshaped values is [null]; in
    particular every row of a table none of whose headers was mapped to
    some target column is tagged so. *)
Theorem zip_row_status (Date_parse : string -> option Z)
        (renamedCols : Obj.t target) (row : object) :
  let mapped := reshape renamedCols row in
  let tag := get (clean_row Date_parse mapped) "DATA_STATUS" in
  (tag = VStr "Missing Fields"
   <-> exists c, get mapped (target_name c) = VNull)
  /\ (tag = VStr "Valid" <-> forall c, get mapped (target_name c) <> VNull)
  /\ forall c, source_of renamedCols c = None -> tag = VStr "Missing Fields".
Proof.
  cbv zeta.
  assert (Htag : get (clean_row Date_parse (reshape renamedCols row)) "DATA_STATUS"
                 = status (reshape renamedCols row)) by reflexivity.
  rewrite Htag. unfold status. rewrite <- reshape_null, <- some_null.
  destruct (existsb is_null (Obj.values (reshape renamedCols row))) eqn:Hex.
  - split; [tauto|]. split.
    + split; [discriminate|]. intros H. exfalso.
      apply some_null, reshape_null in Hex. destruct Hex as [c Hc].
      now apply (H c).
    + reflexivity.
  - split; [split; intros; discriminate|]. split.
    + split; [|reflexivity]. intros _ c Hc.
      assert (H : existsb is_null (Obj.values (reshape renamedCols row)) = true)
        by (apply some_null, reshape_null; eauto).
      congruence.
    + intros c Hc. exfalso.
      assert (H : existsb is_null (Obj.values (reshape renamedCols row)) = true).
      { apply some_null, reshape_null. exists c.
        destruct (reshape_inv renamedCols row) as [_ [_ Hval]].
        unfold get. now rewrite Hval, Hc. }
      congruence.
Qed.

(** ** The rows [parseCSV] returns *)

Lemma split_pieces_free (sep : ascii) (s : string) :
  Forall (fun piece => all_chars (fun c => negb (Ascii.eqb c sep)) piece = true)
         (split sep s).
Proof.
  induction s as [|c s IH]; simpl; [repeat constructor|].
  destruct (Ascii.eqb c sep) eqn:Hc; [now constructor|].
  destruct (split sep s) as [|h r]; [repeat constructor; simpl; now rewrite Hc|].
  inversion IH as [|? ? Hh Hr]; subst. constructor; [|assumption].
  simpl. now rewrite Hc, Hh.
Qed.

Lemma split_pieces_keep (p : ascii -> bool) (sep : ascii) (s : string) :
  all_chars p s = true -> Forall (fun piece => all_chars p piece = true) (split sep s).
Proof.
  induction s as [|c s IH]; simpl; [repeat constructor|].
  intros H. apply andb_prop in H. destruct H as [Hc Hs]. specialize (IH Hs).
  destruct (Ascii.eqb c sep); [now constructor|].
  destruct (split sep s) as [|h r]; [repeat constructor; simpl; now rewrite Hc|].
  inversion IH as [|? ? Hh Hr]; subst. constructor; [|assumption].
  simpl. now rewrite Hc, Hh.
Qed.

Section CsvRow.
Variable cell_of : nat -> value.



Lemma csv_row_cells (P : value -> Prop) (ihs : list (nat * string)) :
  (forall i, P (cell_of i)) ->
  forall st,
    Forall (fun kv => P (snd kv)) (fst st) ->
    Forall (fun kv => P (snd kv)) (fst (fold_left (csv_step cell_of) ihs st)).
Proof.
  intros Hcell. induction ihs as [|[i h] ihs IH]; intros st Hst; simpl;
    [assumption|].
  apply IH. unfold csv_step, assign. simpl.
  assert (Hstore : Forall (fun kv => P (snd kv)) (Obj.store (fst st) h (cell_of i))).
  { apply Forall_forall. intros kv Hin. apply store_In in Hin.
    destruct Hin as [->|Hin]; [apply Hcell|].
    revert kv Hin. now apply Forall_forall. }
  destruct st as [obj gone]. simpl in *.
  destruct (String.eqb h "__proto__"); [destruct gone|]; simpl; assumption.
Qed.
End CsvRow.

Lemma parseCSV_unfold (csvString : string) :
  parseCSV csvString
  = map (fun line =>
           fst (fold_left
                  (csv_step (fun i => or_else (at_index (map trim (split "," line)) i) VNull))
                  (combine (seq 0 (List.length (csv_headers csvString)))
                           (csv_headers csvString)) ([], false)))
        (tl (split LF (trim csvString))).
Proof. reflexivity. Qed.




(** The rows of a text whose first line names [__proto__] twice: an
    empty first cell removes the prototype and the second cell becomes
    an own key, a filled first cell leaves no key at all. *)
Example proto_header_rows :
  parseCSV ("__proto__,__proto__,a" ++ String LF ",x,1" ++ String LF "p,q,2")
  = [ [("__proto__", VStr "x"); ("a", VStr "1")]; [("a", VStr "2")] ].
Proof. reflexivity. Qed.

Lemma csv_cell_of (line : string) (i : nat) :
  all_chars (fun c => negb (Ascii.eqb c LF)) line = true ->
  csv_cell (or_else (at_index (map trim (split "," line)) i) VNull).
Proof.
  intros Hline. unfold at_index.
  destruct (nth_error (map trim (split "," line)) i) as [cell|] eqn:Hnth;
    [|now left].
  apply nth_error_In, in_map_iff in Hnth. destruct Hnth as [piece [<- Hin]].
  unfold or_else. simpl.
  destruct (String.eqb_spec (trim piece) "") as [E|Hne]; simpl; [now left|].
  right. exists (trim piece). split; [reflexivity|]. split; [assumption|].
  split; [apply trim_idempotent|]. split.
  - apply all_chars_trim.
    pose proof (split_pieces_free "," line) as H. rewrite Forall_forall in H.
    now apply H.
  - apply all_chars_trim.
    pose proof (split_pieces_keep _ "," line Hline) as H.
    rewrite Forall_forall in H. now apply H.
Qed.

(** X16.  Every value of every row [parseCSV] returns is [null] or a
    non-empty string without white space at its ends and without a
    comma or a line feed inside: an empty or missing cell is [null],
    never the empty string and never [undefined]. *)
Theorem parseCSV_cells (csvString : string) :
  Forall (fun row => Forall (fun kv => csv_cell (snd kv)) row) (parseCSV csvString).
Proof.
  rewrite parseCSV_unfold. apply Forall_forall. intros row Hrow.
  apply in_map_iff in Hrow. destruct Hrow as [line [<- Hline]].
  apply csv_row_cells; [|constructor].
  intros i. apply csv_cell_of.
  pose proof (split_pieces_free LF (trim csvString)) as H.
  rewrite Forall_forall in H. apply H.
  destruct (split LF (trim csvString)); simpl in *; [contradiction|auto].
Qed.

(** ** The records scanned from PDF text *)

Lemma scanned_set (o : object) (c : target) (s : string) :
  scanned o -> scanned (Obj.set o (target_name c) (VStr (trim s))).
Proof.
  intros [[Hnd Hincl] Hvals]. rewrite set_target. split; [split|].
  - now apply store_NoDup.
  - rewrite store_keys. destruct (has_key _ _); [assumption|].
    apply incl_app; [assumption|]. intros k [<-|[]]. apply in_map, all_targets.
  - apply Forall_forall. intros kv Hin. apply store_In in Hin.
    destruct Hin as [->|Hin].
    + exists (trim s). split; [reflexivity|apply trim_idempotent].
    + revert kv Hin. now apply Forall_forall.
Qed.

Lemma scanned_keys (o : object) :
  scanned o ->
  Obj.entries o = o /\ List.length o <= 4.
Proof.
  intros [[Hnd Hincl] _]. split.
  - apply entries_named. intros k Hk. apply Hincl, in_map_iff in Hk.
    destruct Hk as [c [<- _]]. apply target_name_named.
  - rewrite <- (length_map fst).
    apply (NoDup_incl_length Hnd) in Hincl. exact Hincl.
Qed.

Lemma scanned_record (o : object) :
  scanned o -> 3 <= List.length (Obj.keys o) -> pdf_record o.
Proof.
  intros Ho Hlen. destruct (scanned_keys o Ho) as [He Hle].
  destruct Ho as [[Hnd Hincl] Hvals].
  unfold pdf_record, Obj.keys, Obj.values in *. rewrite He in *.
  rewrite length_map in *. repeat split; try assumption.
  apply Forall_map. exact Hvals.
Qed.

Lemma scan_line_inv (st : list object * object) (line : string) :
  Forall pdf_record (fst st) -> scanned (snd st) ->
  Forall pdf_record (fst (scan_line st line)) /\ scanned (snd (scan_line st line)).
Proof.
  intros Hrecs Hcur. unfold scan_line, labelled.
  change "DATE" with (target_name DATE).
  change "FULL NAME" with (target_name FULL_NAME).
  change "CONTACT" with (target_name CONTACT).
  change "ADDRESS" with (target_name ADDRESS).
  set (c1 := if includes_text "Date:" line then _ else _).
  assert (H1 : scanned c1)
    by (unfold c1; destruct (includes_text "Date:" line);
        [now apply scanned_set|assumption]).
  set (c2 := if includes_text "Name:" line then _ else _).
  assert (H2 : scanned c2)
    by (unfold c2; destruct (includes_text "Name:" line);
        [now apply scanned_set|assumption]).
  set (c3 := if includes_text "Phone:" line then _ else _).
  assert (H3 : scanned c3)
    by (unfold c3; destruct (includes_text "Phone:" line);
        [now apply scanned_set|assumption]).
  set (c4 := if includes_text "Address:" line then _ else _).
  assert (H4 : scanned c4)
    by (unfold c4; destruct (includes_text "Address:" line);
        [now apply scanned_set|assumption]).
  destruct (Nat.leb_spec 3 (List.length (Obj.keys c4))) as [Hlen|Hlen]; simpl.
  - split.
    + apply Forall_app. split; [assumption|].
      constructor; [|constructor]. now apply scanned_record.
    + split; [split; [constructor|intros k []]|constructor].
  - auto.
Qed.

Lemma scan_lines_inv (lines : list string) :
  forall st,
    Forall pdf_record (fst st) -> scanned (snd st) ->
    Forall pdf_record (fst (fold_left scan_line lines st)).
Proof.
  induction lines as [|line lines IH]; intros st Hrecs Hcur; simpl;
    [assumption|].
  destruct (scan_line_inv st line Hrecs Hcur) as [H1 H2]. now apply IH.
Qed.

(** X17.  Every record [extractTextFromPdf] resolves with has three or
    four fields, under distinct names taken from the four target
    columns, and each field is a string with no white space at its
    ends. *)
Theorem extractTextFromPdf_records
        (pdfParse : string -> result string) (buffer : string)
        (records : list object) :
  extractTextFromPdf pdfParse buffer = Ok records ->
  Forall pdf_record records.
Proof.
  unfold extractTextFromPdf. destruct (pdfParse buffer) as [text|e];
    [|discriminate].
  intros H. injection H as <-. apply scan_lines_inv; simpl.
  - constructor.
  - split; [split; [constructor|intros k []]|constructor].
Qed.

Lemma extractTextFromPdf_records_witness :
  let text := ("Date: 2020-01-05 | Name: John Smith | Phone: 555-1234"
               ++ String LF "Address: 1 Main St"
               ++ String LF "Name: A|Date:1")%string in
  let records :=
    [ [ ("DATE", VStr "2020-01-05"); ("FULL NAME", VStr "John Smith");
        ("CONTACT", VStr "555-1234") ];
      [ ("ADDRESS", VStr "1 Main St"); ("DATE", VStr "1"); ("FULL NAME", VStr "A") ] ] in
  extractTextFromPdf pdfParse_plain text = Ok records
  /\ Forall pdf_record records.
Proof.
  cbv zeta.
  assert (H : extractTextFromPdf pdfParse_plain
                ("Date: 2020-01-05 | Name: John Smith | Phone: 555-1234"
                 ++ String LF "Address: 1 Main St"
                 ++ String LF "Name: A|Date:1")
              = Ok [ [ ("DATE", VStr "2020-01-05"); ("FULL NAME", VStr "John Smith");
                       ("CONTACT", VStr "555-1234") ];
                     [ ("ADDRESS", VStr "1 Main St"); ("DATE", VStr "1");
                       ("FULL NAME", VStr "A") ] ]) by reflexivity.
  split; [exact H|].
  exact (extractTextFromPdf_records pdfParse_plain _ _ H).
Defined.

(** ** Failures of the upload handler *)

Section Failures.
Variable Date_parse : string -> option Z.
Variable Fuse_search : list string -> string -> list fuse_result.
Variable XLSX_rows : string -> result (list object).
Variable pdfParse : string -> result string.
Variable JSZip_loadAsync : string -> result (list zip_entry).

Local Notation "'the_loop' files" :=
  (zip_loop Fuse_search XLSX_rows pdfParse files) (at level 10, files at level 9).
Local Notation "'the_handler' file" :=
  (upload Date_parse Fuse_search XLSX_rows pdfParse JSZip_loadAsync file)
    (at level 10, file at level 9).

Lemma zip_loop_unreadable (before after : list zip_entry) (f : zip_entry) (e : string) :
  Forall readable before ->
  skipped (entry_name f) = false ->
  entry_async f = Throw e ->
  forall st, the_loop (before ++ f :: after) st = Throw e.
Proof.
  intros Hb Hskip Hread. induction Hb as [|g before Hg _ IH]; intros st; simpl.
  - now rewrite Hskip, Hread.
  - destruct (skipped (entry_name g)) eqn:Hsg; [apply IH|].
    destruct Hg as [Hg|[fileBuffer Hg]]; [congruence|]. rewrite Hg.
    destruct (decode _ _ _ _) as [[df|e']|]; apply IH.
Qed.

(** X18.  When the bytes of a member that is neither under [__MACOSX]
    nor a directory cannot be read, the whole upload fails with that
    error, whatever the members before it held and whatever the
    extension of the member is. *)
Theorem unreadable_member_fails_upload
        (file : upload_file) (before after : list zip_entry) (f : zip_entry)
        (e : string) :
  endsWith ".zip" (originalname file) = true ->
  JSZip_loadAsync (buffer file) = Ok (before ++ f :: after) ->
  Forall readable before ->
  skipped (entry_name f) = false ->
  entry_async f = Throw e ->
  the_handler (Some file) = Failure e.
Proof.
  intros Hzip Hload Hb Hskip Hread. unfold upload, collect.
  rewrite Hzip, Hload. now rewrite (zip_loop_unreadable before after f e).
Qed.

(** X19.  A member under [__MACOSX] or a directory entry is passed
    over without being read: the loop ends as it does on the archive
    without that member, readable or not. *)
Theorem skipped_member_is_not_read
        (before after : list zip_entry) (f : zip_entry) (st : list object * nat) :
  skipped (entry_name f) = true ->
  the_loop (before ++ f :: after) st = the_loop (before ++ after) st.
Proof.
  intros Hskip. revert st. induction before as [|g before IH]; intros st; simpl.
  - now rewrite Hskip.
  - destruct (skipped (entry_name g)); [apply IH|].
    destruct (entry_async g) as [fileBuffer|e]; [|reflexivity].
    destruct (decode _ _ _ _) as [[df|e']|]; apply IH.
Qed.

(** X20.  A spreadsheet uploaded on its own is not protected by the
    per-file [try]: when reading it throws, the upload fails with that
    error. *)
Theorem single_spreadsheet_failure (file : upload_file) (e : string) :
  endsWith ".zip" (originalname file) = false ->
  endsWith ".csv" (originalname file) = false ->
  endsWith ".xlsx" (originalname file) = true ->
  XLSX_rows (buffer file) = Throw e ->
  the_handler (Some file) = Failure e.
Proof.
  intros Hzip Hcsv Hxlsx Hthrow. unfold upload, collect, parseExcel.
  now rewrite Hzip, Hcsv, Hxlsx, Hthrow.
Qed.

(** X21.  A file whose name ends in none of [.zip], [.csv] and [.xlsx]
    (the comparison is case-sensitive) is answered with a success that
    reports no file processed and no record. *)
Theorem unsupported_name_empty_success (file : upload_file) :
  endsWith ".zip" (originalname file) = false ->
  endsWith ".csv" (originalname file) = false ->
  endsWith ".xlsx" (originalname file) = false ->
  the_handler (Some file)
  = Success {| filesProcessed := 0; recordCount := 0; dedupCount := 0; data := [] |}.
Proof.
  intros Hzip Hcsv Hxlsx. unfold upload, collect.
  now rewrite Hzip, Hcsv, Hxlsx.
Qed.
End Failures.

Lemma unreadable_member_fails_upload_witness :
  endsWith ".zip" (originalname Demo.bundle) = true
  /\ Damaged.JSZip_loadAsync (buffer Demo.bundle)
     = Ok ([Damaged.good; Damaged.fork] ++ Damaged.unreadable :: [Damaged.good])
  /\ Forall readable [Damaged.good; Damaged.fork]
  /\ skipped (entry_name Damaged.unreadable) = false
  /\ entry_async Damaged.unreadable = Throw "invalid stored block lengths"
  /\ Damaged.upload (Some Demo.bundle) = Failure "invalid stored block lengths".
Proof.
  assert (Hzip : endsWith ".zip" (originalname Demo.bundle) = true) by reflexivity.
  assert (Hload : Damaged.JSZip_loadAsync (buffer Demo.bundle)
                  = Ok ([Damaged.good; Damaged.fork]
                          ++ Damaged.unreadable :: [Damaged.good])) by reflexivity.
  assert (Hb : Forall readable [Damaged.good; Damaged.fork]).
  { constructor; [right; eexists; reflexivity|].
    constructor; [left; reflexivity|constructor]. }
  assert (Hskip : skipped (entry_name Damaged.unreadable) = false) by reflexivity.
  assert (Hread : entry_async Damaged.unreadable = Throw "invalid stored block lengths")
    by reflexivity.
  repeat (split; [assumption|]).
  exact (unreadable_member_fails_upload JsDate.parse_iso_date Demo.Fuse_search
           Demo.XLSX_rows Demo.pdfParse Damaged.JSZip_loadAsync
           Demo.bundle _ _ _ _ Hzip Hload Hb Hskip Hread).
Defined.

Lemma skipped_member_is_not_read_witness :
  skipped (entry_name Damaged.fork) = true
  /\ zip_loop Demo.Fuse_search Demo.XLSX_rows Demo.pdfParse
              ([Damaged.good] ++ Damaged.fork :: [Damaged.good]) ([], 0)
     = zip_loop Demo.Fuse_search Demo.XLSX_rows Demo.pdfParse
                ([Damaged.good] ++ [Damaged.good]) ([], 0).
Proof.
  assert (Hskip : skipped (entry_name Damaged.fork) = true) by reflexivity.
  split; [exact Hskip|].
  exact (skipped_member_is_not_read Demo.Fuse_search Demo.XLSX_rows Demo.pdfParse
           [Damaged.good] [Damaged.good] Damaged.fork ([], 0) Hskip).
Defined.

Lemma single_spreadsheet_failure_witness :
  let file := {| originalname := "people.xlsx"; buffer := "PK" |} in
  endsWith ".zip" (originalname file) = false
  /\ endsWith ".csv" (originalname file) = false
  /\ endsWith ".xlsx" (originalname file) = true
  /\ Demo.XLSX_rows (buffer file) = Throw "File is password-protected"
  /\ Demo.upload (Some file) = Failure "File is password-protected".
Proof.
  cbv zeta. repeat (split; [reflexivity|]).
  exact (single_spreadsheet_failure JsDate.parse_iso_date Demo.Fuse_search
           Demo.XLSX_rows Demo.pdfParse Demo.JSZip_loadAsync
           {| originalname := "people.xlsx"; buffer := "PK" |}
           "File is password-protected" eq_refl eq_refl eq_refl eq_refl).
Defined.

Lemma unsupported_name_empty_success_witness :
  let file := {| originalname := "PEOPLE.CSV"; buffer := "Name,Phone" |} in
  endsWith ".zip" (originalname file) = false
  /\ endsWith ".csv" (originalname file) = false
  /\ endsWith ".xlsx" (originalname file) = false
  /\ Demo.upload (Some file)
     = Success {| filesProcessed := 0; recordCount := 0; dedupCount := 0; data := [] |}.
Proof.
  cbv zeta. repeat (split; [reflexivity|]).
  exact (unsupported_name_empty_success JsDate.parse_iso_date Demo.Fuse_search
           Demo.XLSX_rows Demo.pdfParse Demo.JSZip_loadAsync
           {| originalname := "PEOPLE.CSV"; buffer := "Name,Phone" |}
           eq_refl eq_refl eq_refl).
Defined.

(** ** The CSV export *)

Lemma split_plain (sep : ascii) (s : string) :
  all_chars (fun c => negb (Ascii.eqb c sep)) s = true -> split sep s = [s].
Proof.
  induction s as [|c s IH]; simpl; [reflexivity|].
  intros H. apply andb_prop in H. destruct H as [Hc Hs].
  apply negb_true_iff in Hc. now rewrite Hc, IH.
Qed.

Lemma split_app (sep : ascii) (a rest : string) :
  all_chars (fun c => negb (Ascii.eqb c sep)) a = true ->
  split sep (a ++ String sep rest) = a :: split sep rest.
Proof.
  induction a as [|c a IH]; simpl.
  - now rewrite Ascii.eqb_refl.
  - intros H. apply andb_prop in H. destruct H as [Hc Ha].
    apply negb_true_iff in Hc. now rewrite Hc, IH.
Qed.

Lemma split_join (sep : ascii) (lines : list string) :
  lines <> [] ->
  Forall (fun l => all_chars (fun c => negb (Ascii.eqb c sep)) l = true) lines ->
  split sep (join (String sep "") lines) = lines.
Proof.
  intros Hne H. induction H as [|l lines Hl Hrest IH]; [contradiction|].
  destruct lines as [|l' lines].
  - simpl. now apply split_plain.
  - change (join (String sep "") (l :: l' :: lines))
      with (l ++ String sep (join (String sep "") (l' :: lines)))%string.
    rewrite split_app by assumption. f_equal. apply IH. discriminate.
Qed.

Lemma quoted_chars (p : ascii -> bool) (s : string) :
  p QUOTE = true -> all_chars p s = true -> all_chars p (quoted s) = true.
Proof.
  intros Hq Hs. unfold quoted. simpl. rewrite Hq, all_chars_app, Hs. simpl.
  now rewrite Hq.
Qed.

Lemma csv_line_chars (p : ascii -> bool) (row : object) :
  p QUOTE = true -> p ","%char = true ->
  Forall (fun c => all_chars p (ToString (get row (target_name c))) = true)
         TARGET_COLUMNS ->
  all_chars p (csv_line row) = true.
Proof.
  intros Hq Hc H. unfold TARGET_COLUMNS in H.
  inversion H as [|? ? Hd H1]; subst. inversion H1 as [|? ? Hn H2]; subst.
  inversion H2 as [|? ? Hp H3]; subst. inversion H3 as [|? ? Ha _]; subst.
  simpl in Hd, Hn, Hp, Ha. unfold csv_line.
  rewrite !all_chars_app, !quoted_chars, Hd by assumption.
  simpl. now rewrite Hc.
Qed.

(** X22.  When no field of the records holds a line feed, the CSV
    export has the header line and then one line per record, in the
    order of the records. *)
Theorem download_csv_lines (data : list object) :
  data <> [] ->
  Forall one_line data ->
  split LF (download_csv data) = CSV_HEADER :: map csv_line data.
Proof.
  intros Hne Hdata. unfold download_csv.
  rewrite (split_app LF CSV_HEADER) by reflexivity. f_equal.
  apply split_join.
  - destruct data; [contradiction|discriminate].
  - apply Forall_map. apply Forall_forall. intros row Hrow.
    rewrite Forall_forall in Hdata.
    apply (csv_line_chars not_LF); try reflexivity. now apply Hdata.
Qed.

Lemma download_csv_lines_witness :
  let data :=
    [ [ ("DATE", VStr "2020-01-05"); ("FULL NAME", VStr "John Smith");
        ("CONTACT", VStr "5551234"); ("ADDRESS", VNull);
        ("DATA_STATUS", VStr "Missing Fields") ] ] in
  data <> []
  /\ Forall one_line data
  /\ split LF (download_csv data)
     = [ "DATE,FULL NAME,CONTACT,ADDRESS";
         ("2020-01-05," ++ quoted "John Smith" ++ "," ++ quoted "5551234"
          ++ "," ++ quoted "null")%string ].
Proof.
  cbv zeta.
  assert (Hne : [ [ ("DATE", VStr "2020-01-05"); ("FULL NAME", VStr "John Smith");
                    ("CONTACT", VStr "5551234"); ("ADDRESS", VNull);
                    ("DATA_STATUS", VStr "Missing Fields") ] ] <> []) by discriminate.
  assert (Hone : Forall one_line
                        [ [ ("DATE", VStr "2020-01-05"); ("FULL NAME", VStr "John Smith");
                            ("CONTACT", VStr "5551234"); ("ADDRESS", VNull);
                            ("DATA_STATUS", VStr "Missing Fields") ] ])
    by (repeat constructor).
  split; [exact Hne|]. split; [exact Hone|].
  exact (download_csv_lines _ Hne Hone).
Defined.

Lemma trimEnd_fixed (s : string) : ends_clean s = true -> trimEnd s = s.
Proof.
  induction s as [|c s IH]; [reflexivity|].
  destruct s as [|d s].
  - simpl. intros H. apply negb_true_iff in H. now rewrite H.
  - intros H. change (ends_clean (String d s) = true) in H.
    specialize (IH H). simpl in IH |- *. now rewrite IH.
Qed.

Lemma ends_clean_app (a b : string) :
  b <> "" -> ends_clean (a ++ b) = ends_clean b.
Proof.
  intros Hb. induction a as [|c a IH]; [reflexivity|].
  simpl. destruct (a ++ b)%string eqn:E; [|exact IH].
  destruct a; simpl in E; [contradiction|discriminate].
Qed.

Lemma quoted_ends_clean (s : string) : ends_clean (quoted s) = true.
Proof.
  unfold quoted.
  change (String QUOTE (s ++ String QUOTE ""))
    with (String QUOTE "" ++ (s ++ String QUOTE ""))%string.
  rewrite !ends_clean_app; [reflexivity|discriminate|].
  destruct s; discriminate.
Qed.

Lemma trim_quoted (s : string) : trim (quoted s) = quoted s.
Proof.
  unfold trim. rewrite trimStart_fixed by reflexivity.
  apply trimEnd_fixed, quoted_ends_clean.
Qed.

Lemma csv_line_ends_clean (row : object) :
  ends_clean (csv_line row) = true /\ csv_line row <> "".
Proof.
  unfold csv_line. split.
  - rewrite !ends_clean_app; try apply quoted_ends_clean; discriminate.
  - destruct (ToString (get row "DATE")); discriminate.
Qed.

Lemma join_ends_clean (lines : list string) :
  lines <> [] ->
  Forall (fun l => ends_clean l = true /\ l <> "") lines ->
  ends_clean (join (String LF "") lines) = true
  /\ join (String LF "") lines <> "".
Proof.
  intros Hne H. induction H as [|l lines [Hl Hl'] Hrest IH]; [contradiction|].
  destruct lines as [|l' lines]; [now split|].
  change (join (String LF "") (l :: l' :: lines))
    with (l ++ String LF (join (String LF "") (l' :: lines)))%string.
  destruct IH as [IH1 IH2]; [discriminate|]. split.
  - rewrite ends_clean_app by discriminate.
    change (String LF (join (String LF "") (l' :: lines)))
      with (String LF "" ++ join (String LF "") (l' :: lines))%string.
    now rewrite ends_clean_app.
  - destruct l; [contradiction|discriminate].
Qed.

Lemma export_is_trimmed (data : list object) :
  data <> [] -> trim (download_csv data) = download_csv data.
Proof.
  intros Hne. unfold trim. rewrite trimStart_fixed by reflexivity.
  apply trimEnd_fixed. unfold download_csv.
  destruct (join_ends_clean (map csv_line data)) as [H1 H2].
  - destruct data; [contradiction|discriminate].
  - apply Forall_map, Forall_forall. intros row _. apply csv_line_ends_clean.
  - rewrite ends_clean_app by discriminate.
    change (String LF (join (String LF "") (map csv_line data)))
      with (String LF "" ++ join (String LF "") (map csv_line data))%string.
    now rewrite ends_clean_app.
Qed.

Lemma plain_fields_one_line (row : object) : plain_fields row -> one_line row.
Proof.
  unfold plain_fields, one_line. rewrite !Forall_forall.
  intros H c Hc. now apply H.
Qed.

Lemma csv_line_cells (row : object) :
  plain_fields row ->
  split "," (csv_line row)
  = [ ToString (get row "DATE"); quoted (ToString (get row "FULL NAME"));
      quoted (ToString (get row "CONTACT")); quoted (ToString (get row "ADDRESS")) ].
Proof.
  intros H. unfold plain_fields, TARGET_COLUMNS in H.
  inversion H as [|? ? [_ Hd] H1]; subst. inversion H1 as [|? ? [_ Hn] H2]; subst.
  inversion H2 as [|? ? [_ Hp] H3]; subst. inversion H3 as [|? ? [_ Ha] _]; subst.
  simpl in Hd, Hn, Hp, Ha. unfold csv_line.
  cbn [append].
  rewrite split_app by exact Hd.
  rewrite split_app by (apply (quoted_chars not_comma); [reflexivity|exact Hn]).
  rewrite split_app by (apply (quoted_chars not_comma); [reflexivity|exact Hp]).
  rewrite split_plain by (apply (quoted_chars not_comma); [reflexivity|exact Ha]).
  reflexivity.
Qed.

(** X23.  Reading the CSV export back with [parseCSV] gives one row per
    record under the four target names, but not the records: the name,
    the contact and the address come back inside their double quotes,
    and a [null] comes back as the text "null".  (Fields are taken
    free of commas and line feeds.) *)
Theorem reimport_exported_csv (data : list object) :
  data <> [] ->
  Forall plain_fields data ->
  parseCSV (download_csv data) = map reimported data.
Proof.
  intros Hne Hdata.
  assert (Hlines : split LF (download_csv data) = CSV_HEADER :: map csv_line data).
  { unfold download_csv.
    rewrite (split_app LF CSV_HEADER) by reflexivity. f_equal.
    apply split_join; [destruct data; [contradiction|discriminate]|].
    apply Forall_map. apply Forall_forall. intros row Hrow.
    rewrite Forall_forall in Hdata.
    apply (csv_line_chars not_LF); try reflexivity.
    apply plain_fields_one_line. now apply Hdata. }
  rewrite parseCSV_unfold. unfold csv_headers.
  rewrite (export_is_trimmed data Hne), Hlines.
  cbn [hd tl]. rewrite map_map.
  apply map_ext_in. intros row Hrow.
  rewrite Forall_forall in Hdata.
  rewrite (csv_line_cells row (Hdata row Hrow)).
  cbn [map]. rewrite !trim_quoted. reflexivity.
Qed.

Lemma reimport_exported_csv_witness :
  let record :=
    [ ("DATE", VStr "2020-01-05"); ("FULL NAME", VStr "John Smith");
      ("CONTACT", VStr "5551234"); ("ADDRESS", VNull);
      ("DATA_STATUS", VStr "Missing Fields") ] in
  [record] <> []
  /\ Forall plain_fields [record]
  /\ parseCSV (download_csv [record])
     = [ [ ("DATE", VStr "2020-01-05");
           ("FULL NAME", VStr (quoted "John Smith"));
           ("CONTACT", VStr (quoted "5551234"));
           ("ADDRESS", VStr (quoted "null")) ] ].
Proof.
  cbv zeta.
  assert (Hne : [ [ ("DATE", VStr "2020-01-05"); ("FULL NAME", VStr "John Smith");
                    ("CONTACT", VStr "5551234"); ("ADDRESS", VNull);
                    ("DATA_STATUS", VStr "Missing Fields") ] ] <> []) by discriminate.
  assert (Hplain : Forall plain_fields
                          [ [ ("DATE", VStr "2020-01-05"); ("FULL NAME", VStr "John Smith");
                              ("CONTACT", VStr "5551234"); ("ADDRESS", VNull);
                              ("DATA_STATUS", VStr "Missing Fields") ] ])
    by (repeat constructor).
  split; [exact Hne|]. split; [exact Hplain|].
  exact (reimport_exported_csv _ Hne Hplain).
Defined.

(** ** The header assignment of a table *)

Section HeaderAssignment.
Variable Fuse_search : list string -> string -> list fuse_result.

Lemma rename_fold (cols : list string) (col : string) :
  forall renamedCols : Obj.t target,
    Obj.lookup
      (fold_left (fun renamedCols col =>
                    match aiMapColumn Fuse_search col with
                    | Some mapped => Obj.set renamedCols col mapped
                    | None => renamedCols
                    end) cols renamedCols) col
    = match (if (has_key col cols && not_proto col)%bool
             then aiMapColumn Fuse_search col else None) with
      | Some t => Some t
      | None => Obj.lookup renamedCols col
      end.
Proof.
  induction cols as [|k cols IH]; intros rc; simpl; [reflexivity|].
  rewrite IH. clear IH.
  destruct (String.eqb_spec col k) as [->|Hne]; simpl.
  - destruct (not_proto k) eqn:Hp; rewrite ?andb_true_r, ?andb_false_r.
    + destruct (has_key k cols); [now destruct (aiMapColumn Fuse_search k)|].
      destruct (aiMapColumn Fuse_search k) as [t|]; [|reflexivity].
      unfold Obj.set. unfold not_proto in Hp. apply negb_true_iff in Hp.
      rewrite Hp, store_lookup. now rewrite String.eqb_refl.
    + destruct (aiMapColumn Fuse_search k) as [t|]; [|reflexivity].
      unfold Obj.set. unfold not_proto in Hp. apply negb_false_iff in Hp.
      now rewrite Hp.
  - destruct (if (has_key col cols && not_proto col)%bool
              then aiMapColumn Fuse_search col else None); [reflexivity|].
    destruct (aiMapColumn Fuse_search k) as [t|]; [|reflexivity].
    unfold Obj.set. destruct (String.eqb k "__proto__"); [reflexivity|].
    rewrite store_lookup.
    destruct (String.eqb_spec k col); [congruence|reflexivity].
Qed.

(** X24.  The header assignment of a table is the column mapper on the
    keys of its first row: a header is assigned the column the mapper
    returns for it when it is a key of the first row (and not
    [__proto__]), and no header is assigned otherwise; an empty table
    assigns none. *)
Theorem rename_columns_lookup (df : list object) (col : string) :
  Obj.lookup (rename_columns Fuse_search df) col
  = if (has_key col (Obj.keys (hd [] df)) && not_proto col)%bool
    then aiMapColumn Fuse_search col else None.
Proof.
  unfold rename_columns. rewrite rename_fold. simpl.
  now destruct (if (_ && _)%bool then _ else _).
Qed.
End HeaderAssignment.
